(** * Floc-proxy notebooks (tjcrone/agu2019): a shallow embedding

    The notebooks load a metadata table, select file URLs, build a list
    of deferred frame fetches, filter each frame with a Butterworth
    band-pass mask in the frequency domain and count the pixels above a
    threshold.

    Conventions of the embedding:
    - a numpy array is its shape together with its indexing function
      (row-major multi-indices); two arrays are compared on the indices
      inside the shape;
    - float64 and complex128 values are idealised as real and complex
      numbers (no rounding, no infinities);
    - a Python exception is a value of [exn]; code runs in a monad that
      threads the notebook's global variables and may raise. *)

From Stdlib Require Import Reals Lra Lia ZArith QArith Qreals Qround.
From Stdlib Require Import String List Bool Arith Permutation.
From Stdlib Require Import Sorting.Mergesort Sorting.Sorted Orders.
Import ListNotations.

Set Implicit Arguments.
Open Scope nat_scope.

(** ** Python exceptions and results *)

Inductive exn : Type :=
| IndexError
| ValueError
| NameError (name : string)
| OSError (msg : string)
| RuntimeError (msg : string).

Inductive result (A : Type) : Type :=
| Ok (a : A)
| Raise (e : exn).
Arguments Ok {A} a.
Arguments Raise {A} e.

Definition rbind {A B} (r : result A) (k : A -> result B) : result B :=
  match r with
  | Ok a => k a
  | Raise e => Raise e
  end.

Declare Scope result_scope.
Delimit Scope result_scope with result.
Notation "x <~ c1 ;; c2" := (rbind c1 (fun x => c2))
  (at level 100, c1 at next level, right associativity) : result_scope.

(** ** Complex numbers (complex128, idealised) *)

Definition C : Type := (R * R)%type.

Definition Cre (z : C) : R := fst z.
Definition Cim (z : C) : R := snd z.
Definition C0 : C := (0, 0)%R.
Definition RtoC (x : R) : C := (x, 0%R).
Definition ZtoC (z : Z) : C := RtoC (IZR z).
Definition Cadd (a b : C) : C := (Cre a + Cre b, Cim a + Cim b)%R.
Definition Cmul (a b : C) : C :=
  (Cre a * Cre b - Cim a * Cim b, Cre a * Cim b + Cim a * Cre b)%R.
Definition Cscale (z : C) (r : R) : C := (Cre z * r, Cim z * r)%R.
Definition Cabs (z : C) : R := sqrt (Cre z * Cre z + Cim z * Cim z).
Definition cis (theta : R) : C := (cos theta, sin theta).

Fixpoint Csum (n : nat) (f : nat -> C) : C :=
  match n with
  | O => C0
  | S k => Cadd (Csum k f) (f k)
  end.

(** [a > b] on floats, as the boolean numpy produces. *)
Definition Rgtb (a b : R) : bool := if Rlt_dec b a then true else false.

(** ** numpy arrays *)

Record ndarray (A : Type) : Type := mk_ndarray
  { shape : list nat;
    item : list nat -> A }.

Definition ndim {A} (a : ndarray A) : nat := length (shape a).

(** Indices of a shape, in row-major order. *)
Fixpoint indices (s : list nat) : list (list nat) :=
  match s with
  | [] => [[]]
  | d :: s' => flat_map (fun i => map (cons i) (indices s')) (seq 0 d)
  end.

(** Shapes are broadcast from the trailing axis; the two functions below
    work on reversed shapes. *)
Fixpoint broadcast_rev (s1 s2 : list nat) : option (list nat) :=
  match s1, s2 with
  | [], s => Some s
  | s, [] => Some s
  | a :: s1', b :: s2' =>
      match broadcast_rev s1' s2' with
      | Some s =>
          if a =? b then Some (a :: s)
          else if a =? 1 then Some (b :: s)
          else if b =? 1 then Some (a :: s)
          else None
      | None => None
      end
  end.

Definition broadcast_shapes (s1 s2 : list nat) : option (list nat) :=
  option_map (@rev nat) (broadcast_rev (rev s1) (rev s2)).

Fixpoint bcast_index (s idx : list nat) : list nat :=
  match s, idx with
  | d :: s', i :: idx' => (if d =? 1 then 0 else i) :: bcast_index s' idx'
  | _, _ => []
  end.

(** The index an operand of shape [s] is read at, for the index [idx]
    of the broadcast result. *)
Definition project (s idx : list nat) : list nat :=
  bcast_index s (skipn (length idx - length s) idx).

(** Index expressions: [a[i]] and [a[lo:hi]] along one axis. *)
Inductive ix : Type :=
| At (i : nat)
| Slice (lo hi : nat).

Fixpoint getitem_shape (ixs : list ix) (s : list nat) : result (list nat) :=
  match ixs, s with
  | [], _ => Ok s
  | _ :: _, [] => Raise IndexError
  | At i :: ixs', d :: s' =>
      if i <? d then getitem_shape ixs' s' else Raise IndexError
  | Slice lo hi :: ixs', d :: s' =>
      match getitem_shape ixs' s' with
      | Ok r => Ok ((Nat.min hi d - Nat.min lo d) :: r)
      | Raise e => Raise e
      end
  end.

Fixpoint getitem_index (ixs : list ix) (s idx : list nat) : list nat :=
  match ixs, s with
  | [], _ => idx
  | _ :: _, [] => idx
  | At i :: ixs', _ :: s' => i :: getitem_index ixs' s' idx
  | Slice lo hi :: ixs', d :: s' =>
      (Nat.min lo d + hd 0 idx) :: getitem_index ixs' s' (tl idx)
  end.

Fixpoint unsqueeze (s idx : list nat) : list nat :=
  match s with
  | [] => []
  | d :: s' =>
      if d =? 1 then 0 :: unsqueeze s' idx
      else hd 0 idx :: unsqueeze s' (tl idx)
  end.

Fixpoint roll_index (shift : nat -> nat) (s idx : list nat) : list nat :=
  match s, idx with
  | d :: s', i :: idx' => ((i + (d - shift d)) mod d) :: roll_index shift s' idx'
  | _, _ => []
  end.

Module np.

(** [np.arange(start, stop)] with float bounds and step 1.  The bounds
    the notebooks use are dyadic, so they are given as rationals. *)
Definition arange (start stop : Q) : ndarray R :=
  {| shape := [Z.to_nat (Qceiling (stop - start))];
     item := fun idx => Q2R (start + inject_Z (Z.of_nat (hd 0 idx))) |}.

Definition size {A} (a : ndarray A) : nat := fold_right Nat.mul 1 (shape a).

(** [np.meshgrid(x, y)] with the default ['xy'] indexing. *)
Definition meshgrid {A} (x y : ndarray A) : ndarray A * ndarray A :=
  ({| shape := [size y; size x]; item := fun idx => item x [nth 1 idx 0] |},
   {| shape := [size y; size x]; item := fun idx => item y [nth 0 idx 0] |}).

(** A unary ufunc, or a binary one with a scalar operand. *)
Definition ufunc {A B} (f : A -> B) (a : ndarray A) : ndarray B :=
  {| shape := shape a; item := fun idx => f (item a idx) |}.

(** A binary ufunc on two arrays, with broadcasting. *)
Definition ufunc2 {A B D} (f : A -> B -> D) (a : ndarray A) (b : ndarray B)
  : result (ndarray D) :=
  match broadcast_shapes (shape a) (shape b) with
  | Some s =>
      Ok {| shape := s;
            item := fun idx =>
              f (item a (project (shape a) idx))
                (item b (project (shape b) idx)) |}
  | None => Raise ValueError
  end.

Definition add := ufunc2 Rplus.
Definition multiply := ufunc2 Rmult.
Definition sqrt := ufunc sqrt.
Definition absolute := ufunc Cabs.

(** [a[ixs]] *)
Definition getitem {A} (a : ndarray A) (ixs : list ix) : result (ndarray A) :=
  match getitem_shape ixs (shape a) with
  | Ok s =>
      Ok {| shape := s;
            item := fun idx => item a (getitem_index ixs (shape a) idx) |}
  | Raise e => Raise e
  end.

Definition squeeze {A} (a : ndarray A) : ndarray A :=
  {| shape := filter (fun d => negb (d =? 1)) (shape a);
     item := fun idx => item a (unsqueeze (shape a) idx) |}.

(** [np.array([v])] *)
Definition array1 {A} (v : A) : ndarray A :=
  {| shape := [1]; item := fun _ => v |}.

(** [a.sum()] of a boolean array: the number of [True] entries. *)
Definition sum (a : ndarray bool) : Z :=
  Z.of_nat (List.length (filter (item a) (indices (shape a)))).

Module fft.

(** The two-dimensional discrete Fourier transform of an [m] by [n]
    matrix; [sgn] is -1 for the forward transform. *)
Definition dft2 (sgn : R) (m n : nat) (x : nat -> nat -> C) (k l : nat) : C :=
  Csum m (fun p =>
    Csum n (fun q =>
      Cmul (x p q)
           (cis (sgn * 2 * PI *
                 (INR p * INR k / INR m + INR q * INR l / INR n))%R))).

(** The transform runs over the last two axes. *)
Definition transform2 (f : nat -> nat -> (nat -> nat -> C) -> nat -> nat -> C)
           (a : ndarray C) : result (ndarray C) :=
  match rev (shape a) with
  | n :: m :: _ =>
      if (m =? 0) || (n =? 0) then Raise ValueError
      else
        let r := ndim a - 2 in
        Ok {| shape := shape a;
              item := fun idx =>
                let pre := firstn r idx in
                f m n (fun p q => item a (pre ++ [p; q]))
                  (nth r idx 0) (nth (S r) idx 0) |}
  | _ => Raise IndexError
  end.

Definition fft2 : ndarray C -> result (ndarray C) :=
  transform2 (dft2 (-1)).

Definition ifft2 : ndarray C -> result (ndarray C) :=
  transform2 (fun m n x k l =>
                Cscale (dft2 1 m n x k l) (/ (INR m * INR n))%R).

(** [fftshift] rolls every axis by half its length, [ifftshift]
    rolls it back. *)
Definition fftshift {A} (a : ndarray A) : ndarray A :=
  {| shape := shape a;
     item := fun idx => item a (roll_index (fun d => d / 2) (shape a) idx) |}.

Definition ifftshift {A} (a : ndarray A) : ndarray A :=
  {| shape := shape a;
     item := fun idx =>
       item a (roll_index (fun d => d - d / 2) (shape a) idx) |}.

End fft.

End np.

(** ** The notebook's global variables and the monad of its code

    A cell reads and assigns module-level names; a function body only
    has its parameters and locals unless it names a global. *)

Record globals : Type := mk_globals
  { g_frame : option (ndarray Z);
    g_d1 : option R;
    g_d2 : option R;
    g_n : option nat;
    g_bff : option (ndarray R);
    g_I_filt : option (ndarray C) }.

(** A fresh kernel: no name is bound. *)
Definition fresh : globals := mk_globals None None None None None None.

Definition M (A : Type) : Type := globals -> result A * globals.

Definition ret {A} (a : A) : M A := fun g => (Ok a, g).

Definition bind {A B} (c : M A) (k : A -> M B) : M B :=
  fun g =>
    match c g with
    | (Ok a, g') => k a g'
    | (Raise e, g') => (Raise e, g')
    end.

Definition lift {A} (r : result A) : M A := fun g => (r, g).

(** Reading a global name; an unbound name raises [NameError]. *)
Definition load {A} (name : string) (field : globals -> option A) : M A :=
  fun g =>
    match field g with
    | Some v => (Ok v, g)
    | None => (Raise (NameError name), g)
    end.

Definition store (upd : globals -> globals) : M unit :=
  fun g => (Ok tt, upd g).

Declare Scope py_scope.
Delimit Scope py_scope with py.
Notation "x <- c1 ;; c2" := (bind c1 (fun x => c2))
  (at level 100, c1 at next level, right associativity) : py_scope.
Notation "c1 ;;; c2" := (bind c1 (fun _ => c2))
  (at level 100, right associativity) : py_scope.
Open Scope py_scope.

(** A computation that neither depends on the globals nor changes
    them: in every state it gives the same result and leaves the state
    as it found it. *)
Definition stateless {A} (c : M A) : Prop :=
  exists r, forall g, c g = (r, g).

(** ** The filter functions (cells "butterworth", "frame_filter",
    "calc_floc_proxy") *)

Definition butterworth (d1 d2 : R) (n : nat) : M (ndarray R) :=
  let x := np.arange (-1024/2+0.5) (1024/2+1-0.5) in
  let '(xx, yy) := np.meshgrid x x in
  s <- lift (np.add (np.ufunc (fun v => v ^ 2)%R xx)
                    (np.ufunc (fun v => v ^ 2)%R yy)) ;;
  let d := np.sqrt s in
  bff <- lift (np.multiply
                 (np.ufunc (fun v => 1 - (1 / (1 + (v / d1) ^ (2 * n))))%R d)
                 (np.ufunc (fun v => 1 / (1 + (v / d2) ^ (2 * n)))%R d)) ;;
  ret bff.

(** The first statement of [frame_filter]: the [if] that assigns [I]. *)
Definition crop (frame : ndarray Z) : M (ndarray Z) :=
  if (ndim frame =? 3) && (hd 0 (shape frame) =? 1) then
    t <- lift (np.getitem frame [At 0; Slice 0 1024; Slice 0 1024]) ;;
    ret (np.squeeze t)
  else
    lift (np.getitem frame [Slice 0 1024; Slice 0 1024]).

Definition frame_filter (frame : ndarray Z) (d1 d2 : R) (n : nat)
  : M (ndarray C) :=
  I <- crop frame ;;
  bff <- butterworth d1 d2 n ;;
  I_fft <- lift (np.fft.fft2 (np.ufunc ZtoC I)) ;;
  let I_fft_shift := np.fft.fftshift I_fft in
  I_fft_shift_filt <- lift (np.ufunc2 Cscale I_fft_shift bff) ;;
  let I_fft_filt := np.fft.ifftshift I_fft_shift_filt in
  I_filt <- lift (np.fft.ifft2 I_fft_filt) ;;
  ret I_filt.

Definition calc_floc_proxy (frame : ndarray Z) (d1 d2 : R) (n : nat)
  : M (ndarray Z) :=
  I_filt <- frame_filter frame d1 d2 n ;;
  ret (np.array1
         (np.sum (np.ufunc (fun v => Rgtb v 4000) (np.absolute I_filt)))).

(** Cell: [d1 = 20; d2 = 400; n = 4; bff = butterworth(d1, d2, n)]. *)
Definition cell_show_filter : M unit :=
  store (fun g => mk_globals (g_frame g) (Some 20%R) (g_d2 g) (g_n g)
                             (g_bff g) (g_I_filt g)) ;;;
  store (fun g => mk_globals (g_frame g) (g_d1 g) (Some 400%R) (g_n g)
                             (g_bff g) (g_I_filt g)) ;;;
  store (fun g => mk_globals (g_frame g) (g_d1 g) (g_d2 g) (Some 4)
                             (g_bff g) (g_I_filt g)) ;;;
  d1 <- load "d1" g_d1 ;;
  d2 <- load "d2" g_d2 ;;
  n <- load "n" g_n ;;
  r <- butterworth d1 d2 n ;;
  store (fun g => mk_globals (g_frame g) (g_d1 g) (g_d2 g) (g_n g)
                             (Some r) (g_I_filt g)).

(** Cell: [I_filt = frame_filter(frame, d1, d2, n)]. *)
Definition cell_example_frame : M unit :=
  frame <- load "frame" g_frame ;;
  d1 <- load "d1" g_d1 ;;
  d2 <- load "d2" g_d2 ;;
  n <- load "n" g_n ;;
  r <- frame_filter frame d1 d2 n ;;
  store (fun g => mk_globals (g_frame g) (g_d1 g) (g_d2 g) (g_n g)
                             (g_bff g) (Some r)).

(** ** Frames and the filter, as the text describes them *)

(** A single-channel frame of at least 1024 by 1024 pixels: a
    two-dimensional array, or a block of one such frame, of shape
    [(1, h, w)], as [map_blocks] passes it. *)
Definition gray_frame (frame : ndarray Z) : bool :=
  match shape frame with
  | [h; w] => (1024 <=? h) && (1024 <=? w)
  | [k; h; w] => (k =? 1) && (1024 <=? h) && (1024 <=? w)
  | _ => false
  end.

(** Pixel [(i, j)] of a single-channel frame. *)
Definition pixel (frame : ndarray Z) (i j : nat) : Z :=
  if ndim frame =? 3 then item frame [0; i; j] else item frame [i; j].

(** The number of [k < n] with [p k]. *)
Fixpoint count_upto (n : nat) (p : nat -> bool) : nat :=
  match n with
  | O => 0
  | S k => count_upto k p + (if p k then 1 else 0)
  end.

(** The number of pixels [(i, j)] of an [h] by [w] image with [p i j]. *)
Fixpoint count_pixels (h w : nat) (p : nat -> nat -> bool) : nat :=
  match h with
  | O => 0
  | S k => count_pixels k w p + count_upto w (p k)
  end.

(** The band-pass filter on a 1024 by 1024 image, step by step:
    transform, centre the spectrum, weigh it by the mask, undo the
    centring, transform back. *)
Definition mask_value (d1 d2 : R) (n : nat) (k l : nat) : R :=
  (let d := sqrt ((INR l - 511.5) ^ 2 + (INR k - 511.5) ^ 2) in
   (1 - 1 / (1 + (d / d1) ^ (2 * n))) * (1 / (1 + (d / d2) ^ (2 * n))))%R.

Definition centred (x : nat -> nat -> C) (k l : nat) : C :=
  x ((k + 512) mod 1024) ((l + 512) mod 1024).

Definition bandpass_filtered (img : nat -> nat -> Z) (d1 d2 : R) (n : nat)
  : nat -> nat -> C :=
  let spectrum := np.fft.dft2 (-1) 1024 1024 (fun p q => ZtoC (img p q)) in
  let shifted := centred spectrum in
  let weighed := fun k l => Cscale (shifted k l) (mask_value d1 d2 n k l) in
  let unshifted := centred weighed in
  fun i j =>
    Cscale (np.fft.dft2 1 1024 1024 unshifted i j) (/ (INR 1024 * INR 1024))%R.

(** Frames with every pixel zero, for examples. *)
Definition black (s : list nat) : ndarray Z :=
  {| shape := s; item := fun _ => 0%Z |}.

(** ** The metadata table (cells "dbcamhd = pd.read_json(...)" and
    "blob_urls = ...") *)

Record row : Type := mk_row
  { blob_url : string;
    deployment : Z;
    frame_count : Z;
    timestamp : R }.

Definition dataframe : Type := list row.

(** [list.sort] on strings: a merge sort by the lexicographic order. *)
Module StringOrder <: TotalLeBool.
Definition t : Type := string.
Definition leb : t -> t -> bool := String.leb.
Definition leb_total :
  forall a1 a2 : t, leb a1 a2 = true \/ leb a2 a1 = true := String.leb_total.
End StringOrder.

Module StringSort := Sort StringOrder.

(** The boolean mask
    [(deployment == 2) & (frame_count > 5000) & (frame_count < 30000)]. *)
Definition selected (r : row) : bool :=
  (deployment r =? 2)%Z && (frame_count r >? 5000)%Z
  && (frame_count r <? 30000)%Z.

Definition blob_urls (dbcamhd : dataframe) : list string :=
  StringSort.sort (map blob_url (filter selected dbcamhd)).

(** [frame_numbers] of the two notebooks. *)
Definition frame_numbers_show_image : list Z := [7200%Z].
Definition frame_numbers_floc_analysis : list Z :=
  [3841; 3933; 4052; 4171; 4263; 4382]%Z.

(** ** Timestamps (cell "Get a timestamp for each frame") *)

Section Timestamps.

(** [dates.date2num(datetime.datetime.fromtimestamp(t))], a conversion
    of the two libraries. *)
Variable to_datenum : R -> R.

(** The inner loop; [timestamp] is the variable it keeps assigning. *)
Fixpoint frame_timestamp_inner (timestamp : R) (frame_numbers : list Z)
         (frame_timestamp : list R) : list R :=
  match frame_numbers with
  | [] => frame_timestamp
  | frame_number :: rest =>
      let timestamp := (timestamp + IZR frame_number / 29.97)%R in
      frame_timestamp_inner timestamp rest
        (frame_timestamp ++ [to_datenum timestamp])
  end.

(** [dbcamhd['timestamp'][dbcamhd.blob_url == blob_url].iloc[0]] *)
Definition table_timestamp (dbcamhd : dataframe) (url : string) : result R :=
  match filter (fun r => String.eqb (blob_url r) url) dbcamhd with
  | r :: _ => Ok (timestamp r)
  | [] => Raise IndexError
  end.

Fixpoint frame_timestamp_loop (dbcamhd : dataframe) (urls : list string)
         (frame_numbers : list Z) (frame_timestamp : list R)
  : result (list R) :=
  match urls with
  | [] => Ok frame_timestamp
  | url :: rest =>
      match table_timestamp dbcamhd url with
      | Ok timestamp =>
          frame_timestamp_loop dbcamhd rest frame_numbers
            (frame_timestamp_inner timestamp frame_numbers frame_timestamp)
      | Raise e => Raise e
      end
  end.

Definition frame_timestamp (dbcamhd : dataframe) (urls : list string)
           (frame_numbers : list Z) : result (list R) :=
  frame_timestamp_loop dbcamhd urls frame_numbers [].

End Timestamps.

(** Days since the epoch, for a kernel whose local time is UTC. *)
Definition utc_datenum (t : R) : R := (t / 86400)%R.

(** ** The deferred frames (cell "delayed_frame_list = ...") *)

(** A deferred call, a node of the task graph; a node is named by its
    position in the graph, which stands for the fresh key dask gives
    each call of a [delayed] function. *)
Inductive task : Type :=
| call_get_moov_atom (url : string)
| call_get_frame (url : string) (frame_number : Z) (pix_fmt : string)
                 (moov_atom : nat).

Inductive dtype : Type := uint8 | uint16.

(** [dsa.from_delayed(value, shape, dtype)] *)
Record lazy_frame : Type := from_delayed
  { value : nat;
    declared_shape : list nat;
    declared_dtype : dtype }.

Definition delayed (t : task) (graph : list task) : nat * list task :=
  (List.length graph, graph ++ [t]).

Section DelayedFrames.

(** What the two notebooks ask [get_frame] for: ['gray16le'],
    [(1080, 1920)], [np.uint16], or ['rgb24'], [(1080, 1920, 3)],
    [np.uint8]. *)
Variable pix_fmt : string.
Variable frame_shape : list nat.
Variable frame_dtype : dtype.

Fixpoint delayed_frame_inner (url : string) (delayed_moov_atom : nat)
         (frame_numbers : list Z) (st : list task * list lazy_frame)
  : list task * list lazy_frame :=
  match frame_numbers with
  | [] => st
  | frame_number :: rest =>
      let '(graph, delayed_frame_list) := st in
      let '(delayed_frame, graph) :=
        delayed (call_get_frame url frame_number pix_fmt delayed_moov_atom)
                graph in
      delayed_frame_inner url delayed_moov_atom rest
        (graph,
         delayed_frame_list
           ++ [from_delayed delayed_frame frame_shape frame_dtype])
  end.

Fixpoint delayed_frame_loop (urls : list string) (frame_numbers : list Z)
         (st : list task * list lazy_frame) : list task * list lazy_frame :=
  match urls with
  | [] => st
  | url :: rest =>
      let '(graph, delayed_frame_list) := st in
      let '(delayed_moov_atom, graph) :=
        delayed (call_get_moov_atom url) graph in
      delayed_frame_loop rest frame_numbers
        (delayed_frame_inner url delayed_moov_atom frame_numbers
           (graph, delayed_frame_list))
  end.

(** The task graph and [delayed_frame_list] after the loop. *)
Definition delayed_frame_list (urls : list string) (frame_numbers : list Z)
  : list task * list lazy_frame :=
  delayed_frame_loop urls frame_numbers ([], []).

End DelayedFrames.

(** [dsa.stack(seq)]: one chunk per stacked array along a new first
    axis. *)
Record dask_array : Type := mk_dask_array
  { chunks : list lazy_frame;
    dask_shape : list nat;
    dask_dtype : dtype }.

Definition same_shape (s1 s2 : list nat) : bool :=
  if list_eq_dec Nat.eq_dec s1 s2 then true else false.

Definition stack (seq : list lazy_frame) : result dask_array :=
  match seq with
  | [] => Raise ValueError
  | a :: rest =>
      if forallb (fun b => same_shape (declared_shape b) (declared_shape a))
                 rest
      then Ok {| chunks := seq;
                 dask_shape := List.length seq :: declared_shape a;
                 dask_dtype := declared_dtype a |}
      else Raise ValueError
  end.

(** ** Computing a deferred value *)

Section Compute.

(** The two functions of the frame-extraction library. *)
Variable moov : Type.
Variable get_moov_atom : string -> result moov.
Variable get_frame : string -> Z -> string -> moov -> result (ndarray Z).

(** [pd.read_json] *)
Variable read_json : string -> result dataframe.

Definition compute_task (graph : list task) (key : nat)
  : result (ndarray Z) :=
  match nth_error graph key with
  | Some (call_get_frame url frame_number pix_fmt moov_key) =>
      match nth_error graph moov_key with
      | Some (call_get_moov_atom moov_url) =>
          (moov_atom <~ get_moov_atom moov_url ;;
           get_frame url frame_number pix_fmt moov_atom)%result
      | _ => Raise (RuntimeError "not a moov atom")
      end
  | _ => Raise (RuntimeError "not a frame")
  end.

(** [delayed_frame_array[k].compute()] *)
Definition compute_frame (graph : list task) (delayed_frame_array : dask_array)
           (k : nat) : result (ndarray Z) :=
  match nth_error (chunks delayed_frame_array) k with
  | Some a => compute_task graph (value a)
  | None => Raise IndexError
  end.

(** The block [map_blocks] hands to the function: chunk [k] with its
    axis of length one in front. *)
Definition block_of (frame : ndarray Z) : ndarray Z :=
  {| shape := 1 :: shape frame; item := fun idx => item frame (tl idx) |}.

(** [floc_proxy[k].compute()], for
    [floc_proxy = dsa.map_blocks(calc_floc_proxy, delayed_frame_array,
    d1, d2, n, ...)]. *)
Definition compute_floc_proxy (graph : list task)
           (delayed_frame_array : dask_array) (d1 d2 : R) (n : nat) (k : nat)
  : M (ndarray Z) :=
  frame <- lift (compute_frame graph delayed_frame_array k) ;;
  calc_floc_proxy (block_of frame) d1 d2 n.

(** The cells from the table to one value of the floc proxy, in the
    order of the notebook. *)
Definition notebook_floc_proxy (pix_fmt : string) (frame_shape : list nat)
           (frame_dtype : dtype) (frame_numbers : list Z)
           (d1 d2 : R) (n : nat) (k : nat) : M (ndarray Z) :=
  dbcamhd <- lift (read_json "dbcamhd.json") ;;
  let '(graph, delayed_frame_list) :=
    delayed_frame_list pix_fmt frame_shape frame_dtype
                       (blob_urls dbcamhd) frame_numbers in
  delayed_frame_array <- lift (stack delayed_frame_list) ;;
  compute_floc_proxy graph delayed_frame_array d1 d2 n k.

End Compute.

(** ** The loops, in closed form *)

(** The values [timestamp] takes in the inner loop, started at [t]. *)
Fixpoint running_timestamps (t : R) (frame_numbers : list Z) : list R :=
  match frame_numbers with
  | [] => []
  | frame_number :: rest =>
      let t' := (t + IZR frame_number / 29.97)%R in
      t' :: running_timestamps t' rest
  end.

(** The first row of the table with a given URL. *)
Definition first_row (dbcamhd : dataframe) (url : string) : option row :=
  hd_error (filter (fun r => String.eqb (blob_url r) url) dbcamhd).

(** The values appended for one file, for a file the table has. *)
Definition file_timestamps (conv : R -> R) (db : dataframe) (fns : list Z)
           (url : string) : list R :=
  match first_row db url with
  | Some r => map conv (running_timestamps (timestamp r) fns)
  | None => repeat 0%R (List.length fns)
  end.

Definition is_moov_fetch (t : task) : bool :=
  match t with
  | call_get_moov_atom _ => true
  | call_get_frame _ _ _ _ => false
  end.

Section ClosedForm.

Variable pix_fmt : string.
Variable frame_shape : list nat.
Variable frame_dtype : dtype.
Variable frame_numbers : list Z.

(** The tasks one URL adds to a graph of [base] nodes, and the frames
    it appends. *)
Definition url_tasks (url : string) (base : nat) : list task :=
  call_get_moov_atom url
  :: map (fun fn => call_get_frame url fn pix_fmt base) frame_numbers.

Definition url_frames (base : nat) : list lazy_frame :=
  map (fun i => from_delayed (base + 1 + i) frame_shape frame_dtype)
      (seq 0 (List.length frame_numbers)).

Fixpoint graph_from (base : nat) (urls : list string) : list task :=
  match urls with
  | [] => []
  | url :: rest =>
      url_tasks url base
      ++ graph_from (base + S (List.length frame_numbers)) rest
  end.

Fixpoint frames_from (base : nat) (urls : list string) : list lazy_frame :=
  match urls with
  | [] => []
  | _ :: rest =>
      url_frames base
      ++ frames_from (base + S (List.length frame_numbers)) rest
  end.

End ClosedForm.

(** A table of one file, for examples. *)
Definition one_file_table : dataframe :=
  [mk_row "a.mov" 2 10000 1000].

(** A frame source whose decoder fails, for examples. *)
Definition failing_get_frame (url : string) (frame_number : Z)
           (pix_fmt : string) (moov_atom : unit) : result (ndarray Z) :=
  Raise (OSError "decode failure").

(** ** Slices and the computes of the whole array (cells
    "results = floc_proxy[...].compute()" and the plot) *)

(** Every [step]-th element, after skipping [skip]. *)
Fixpoint stride_from {A} (skip step : nat) (l : list A) : list A :=
  match l with
  | [] => []
  | x :: rest =>
      match skip with
      | O => x :: stride_from (step - 1) step rest
      | S k => stride_from k step rest
      end
  end.

(** [l[0::step]]; a zero step raises [ValueError]. *)
Definition getslice_step {A} (l : list A) (step : nat) : result (list A) :=
  if step =? 0 then Raise ValueError else Ok (stride_from 0 step l).

Section ComputeAll.

Variable moov : Type.
Variable get_moov_atom : string -> result moov.
Variable get_frame : string -> Z -> string -> moov -> result (ndarray Z).

(** The values of the blocks [ks] of [floc_proxy], as the entries of the
    one-dimensional array [compute] returns.  The blocks are taken in
    the order of their indices; which exception comes out when several
    blocks fail is the scheduler's choice. *)
Fixpoint compute_blocks (graph : list task) (delayed_frame_array : dask_array)
         (d1 d2 : R) (n : nat) (ks : list nat) : M (list Z) :=
  match ks with
  | [] => ret []
  | k :: rest =>
      r <- compute_floc_proxy get_moov_atom get_frame graph
                              delayed_frame_array d1 d2 n k ;;
      rs <- compute_blocks graph delayed_frame_array d1 d2 n rest ;;
      ret (item r [0] :: rs)
  end.

(** [floc_proxy.compute()] *)
Definition floc_proxy_compute (graph : list task)
           (delayed_frame_array : dask_array) (d1 d2 : R) (n : nat)
  : M (list Z) :=
  compute_blocks graph delayed_frame_array d1 d2 n
                 (seq 0 (List.length (chunks delayed_frame_array))).

(** [floc_proxy[0:10].compute()] *)
Definition floc_proxy_compute_first10 (graph : list task)
           (delayed_frame_array : dask_array) (d1 d2 : R) (n : nat)
  : M (list Z) :=
  compute_blocks graph delayed_frame_array d1 d2 n
                 (firstn 10 (seq 0 (List.length (chunks delayed_frame_array)))).

(** [floc_proxy[0::10].compute()] *)
Definition floc_proxy_compute_every10 (graph : list task)
           (delayed_frame_array : dask_array) (d1 d2 : R) (n : nat)
  : M (list Z) :=
  ks <- lift (getslice_step
                (seq 0 (List.length (chunks delayed_frame_array))) 10) ;;
  compute_blocks graph delayed_frame_array d1 d2 n ks.

End ComputeAll.

(** Frame sources that return a black frame whatever is asked, for
    examples. *)
Definition black_get_frame (s : list nat) (url : string) (frame_number : Z)
           (pix_fmt : string) (moov_atom : unit) : result (ndarray Z) :=
  Ok (black s).

Definition unit_moov_atom (url : string) : result unit := Ok tt.

(** The deferred frames of two files in the floc-analysis notebook, and
    their stacked array, for examples. *)
Definition two_files_frames : list task * list lazy_frame :=
  delayed_frame_list "gray16le" [1080; 1920] uint16
                     ["a.mov"; "b.mov"]%string frame_numbers_floc_analysis.

Definition two_files_array : dask_array :=
  mk_dask_array (snd two_files_frames) [12; 1080; 1920] uint16.

(** * Properties *)

(** ** Running code in the monad *)

Lemma bind_ok {A B} (c : M A) (k : A -> M B) g a g' :
  c g = (Ok a, g') -> bind c k g = k a g'.
Proof. intros H. unfold bind. rewrite H. reflexivity. Qed.

Lemma bind_raise {A B} (c : M A) (k : A -> M B) g e g' :
  c g = (Raise e, g') -> bind c k g = (Raise e, g').
Proof. intros H. unfold bind. rewrite H. reflexivity. Qed.

Lemma bind_lift_ok {A B} (r : result A) (k : A -> M B) g a :
  r = Ok a -> bind (lift r) k g = k a g.
Proof. intros ->. reflexivity. Qed.

Lemma bind_lift_raise {A B} (r : result A) (k : A -> M B) g e :
  r = Raise e -> bind (lift r) k g = (Raise e, g).
Proof. intros ->. reflexivity. Qed.

(** ** The coordinate grid and the Butterworth mask *)

Local Abbreviation grid := (np.arange (-1024/2+0.5) (1024/2+1-0.5)).

Lemma grid_shape : shape grid = [1024].
Proof. vm_compute. reflexivity. Qed.

Lemma grid_size : np.size grid = 1024.
Proof. vm_compute. reflexivity. Qed.

Lemma grid_item (k : nat) : item grid [k] = (INR k - 511.5)%R.
Proof.
  unfold np.arange. cbn [item hd].
  rewrite Q2R_plus.
  assert (E : (-1024/2+0.5 == -1023 # 2)%Q) by reflexivity.
  rewrite (Qeq_eqR _ _ E).
  unfold Q2R. cbn [Qnum Qden inject_Z].
  rewrite <- INR_IZR_INZ. lra.
Qed.

Lemma grid_mirror (k : nat) :
  k < 1024 -> item grid [1023 - k] = (- item grid [k])%R.
Proof.
  intros Hk. rewrite !grid_item. rewrite minus_INR by lia.
  rewrite (INR_IZR_INZ 1023). simpl. lra.
Qed.

Lemma broadcast_square :
  broadcast_shapes [1024; 1024] [1024; 1024] = Some [1024; 1024].
Proof. vm_compute. reflexivity. Qed.

Lemma butterworth_run (d1 d2 : R) (n : nat) (g : globals) :
  exists bff,
    butterworth d1 d2 n g = (Ok bff, g) /\
    shape bff = [1024; 1024] /\
    forall i j,
      item bff [i; j] =
      (let d := sqrt (item grid [j] ^ 2 + item grid [i] ^ 2) in
       (1 - 1 / (1 + (d / d1) ^ (2 * n))) * (1 / (1 + (d / d2) ^ (2 * n))))%R.
Proof.
  unfold butterworth, np.meshgrid, np.add, np.multiply, np.sqrt.
  unfold np.ufunc2, np.ufunc. cbn [shape item].
  rewrite grid_size. rewrite broadcast_square.
  cbn [lift bind shape item]. rewrite broadcast_square.
  cbn [lift bind ret shape item].
  eexists. split; [reflexivity|]. split; [reflexivity|].
  intros i j. cbn [item]. reflexivity.
Qed.

(** C2: for positive [d1], [d2] and [n], [butterworth] returns a 1024 by
    1024 mask whose entry in row [i] and column [j] is the band-pass
    value [(1 - 1/(1 + (d/d1)^(2n))) * (1/(1 + (d/d2)^(2n)))] at the
    distance [d] of the point [(j - 511.5, i - 511.5)] from the centre
    of the grid -511.5 .. 511.5; no global is touched. *)
Theorem butterworth_bandpass_mask (d1 d2 : R) (n : nat) (g : globals) (i j : nat) :
  (0 < d1)%R -> (0 < d2)%R -> 0 < n -> i < 1024 -> j < 1024 ->
  exists bff,
    butterworth d1 d2 n g = (Ok bff, g) /\
    shape bff = [1024; 1024] /\
    item bff [i; j] =
    (let d := sqrt ((INR j - 511.5) ^ 2 + (INR i - 511.5) ^ 2) in
     (1 - 1 / (1 + (d / d1) ^ (2 * n))) * (1 / (1 + (d / d2) ^ (2 * n))))%R.
Proof.
  intros _ _ _ _ _.
  destruct (butterworth_run d1 d2 n g) as (bff & Hrun & Hshape & Hitem).
  exists bff. repeat split; trivial.
  rewrite Hitem, !grid_item. reflexivity.
Qed.

Lemma butterworth_bandpass_mask_witness :
  exists bff,
    butterworth 20 400 4 fresh = (Ok bff, fresh) /\
    shape bff = [1024; 1024] /\
    item bff [0; 3] =
    (let d := sqrt ((INR 3 - 511.5) ^ 2 + (INR 0 - 511.5) ^ 2) in
     (1 - 1 / (1 + (d / 20) ^ (2 * 4))) * (1 / (1 + (d / 400) ^ (2 * 4))))%R.
Proof.
  apply (butterworth_bandpass_mask (d1 := 20) (d2 := 400) (n := 4) fresh
           (i := 0) (j := 3)); try lra; lia.
Defined.

(** C10: the mask is unchanged by a rotation of 180 degrees: the entry
    at [(i, j)] equals the entry at [(1023 - i, 1023 - j)]. *)
Theorem butterworth_rot180 (d1 d2 : R) (n : nat) (g : globals) (i j : nat) :
  (0 < d1)%R -> (0 < d2)%R -> 0 < n -> i < 1024 -> j < 1024 ->
  exists bff,
    butterworth d1 d2 n g = (Ok bff, g) /\
    item bff [i; j] = item bff [1023 - i; 1023 - j].
Proof.
  intros _ _ _ Hi Hj.
  destruct (butterworth_run d1 d2 n g) as (bff & Hrun & _ & Hitem).
  exists bff. split; trivial.
  rewrite !Hitem, !grid_mirror by assumption.
  replace ((- item grid [j]) ^ 2)%R with (item grid [j] ^ 2)%R by ring.
  replace ((- item grid [i]) ^ 2)%R with (item grid [i] ^ 2)%R by ring.
  reflexivity.
Qed.

Lemma butterworth_rot180_witness :
  exists bff,
    butterworth 20 400 4 fresh = (Ok bff, fresh) /\
    item bff [10; 700] = item bff [1023 - 10; 1023 - 700].
Proof.
  apply (butterworth_rot180 (d1 := 20) (d2 := 400) (n := 4) fresh
           (i := 10) (j := 700)); try lra; lia.
Defined.

(** ** Cropping *)

Lemma getitem_shape_crop2 (h w : nat) (s : list nat) :
  getitem_shape [Slice 0 1024; Slice 0 1024] (h :: w :: s) =
  Ok (Nat.min 1024 h :: Nat.min 1024 w :: s).
Proof.
  cbn [getitem_shape]. rewrite !Nat.min_0_l, !Nat.sub_0_r. reflexivity.
Qed.

Lemma getitem_index_crop2 (h w : nat) (s : list nat) (i j : nat) (idx : list nat) :
  getitem_index [Slice 0 1024; Slice 0 1024] (h :: w :: s) (i :: j :: idx) =
  i :: j :: idx.
Proof. cbn [getitem_index hd tl]. rewrite !Nat.min_0_l. reflexivity. Qed.

Lemma crop_2d (frame : ndarray Z) (g : globals) (h w : nat) :
  shape frame = [h; w] -> 1024 <= h -> 1024 <= w ->
  exists I,
    crop frame g = (Ok I, g) /\
    shape I = [1024; 1024] /\
    forall i j, item I [i; j] = item frame [i; j].
Proof.
  intros Hs Hh Hw. unfold crop, ndim. rewrite Hs. cbn [length hd].
  change (2 =? 3) with false. cbn [andb].
  unfold lift, np.getitem. rewrite Hs, getitem_shape_crop2.
  rewrite !Nat.min_l by assumption.
  eexists. split; [reflexivity|]. split; [reflexivity|].
  intros i j. cbn [item]. rewrite getitem_index_crop2. reflexivity.
Qed.

Lemma crop_block (frame : ndarray Z) (g : globals) (h w : nat) :
  shape frame = [1; h; w] -> 1024 <= h -> 1024 <= w ->
  exists I,
    crop frame g = (Ok I, g) /\
    shape I = [1024; 1024] /\
    forall i j, item I [i; j] = item frame [0; i; j].
Proof.
  intros Hs Hh Hw. unfold crop, ndim. rewrite Hs. cbn [length hd].
  change ((3 =? 3) && (1 =? 1)) with true. cbv iota.
  unfold np.getitem. rewrite Hs.
  assert (E : getitem_shape [At 0; Slice 0 1024; Slice 0 1024] [1; h; w] =
              Ok [1024; 1024]).
  { cbn [getitem_shape]. change (0 <? 1) with true. cbv iota.
    rewrite !Nat.min_0_l, !Nat.sub_0_r, !Nat.min_l by assumption. reflexivity. }
  rewrite E. cbn [lift bind ret].
  eexists. split; [reflexivity|]. split; [reflexivity|].
  intros i j. unfold np.squeeze. cbn [item shape].
  change (unsqueeze [1024; 1024] [i; j]) with [i; j].
  cbn [getitem_index hd tl]. rewrite !Nat.min_0_l. reflexivity.
Qed.

(** Any other three-dimensional frame is cropped along its first two
    axes only. *)
Lemma crop_3d (frame : ndarray Z) (g : globals) (h w c : nat) :
  shape frame = [h; w; c] -> h <> 1 ->
  exists I,
    crop frame g = (Ok I, g) /\
    shape I = [Nat.min 1024 h; Nat.min 1024 w; c] /\
    forall i j k, item I [i; j; k] = item frame [i; j; k].
Proof.
  intros Hs Hh. unfold crop, ndim. rewrite Hs. cbn [length hd].
  destruct (Nat.eqb_spec h 1) as [->|_]; [contradiction|].
  rewrite andb_false_r.
  unfold lift, np.getitem. rewrite Hs, getitem_shape_crop2.
  eexists. split; [reflexivity|]. split; [reflexivity|].
  intros i j k. cbn [item]. rewrite getitem_index_crop2. reflexivity.
Qed.

Lemma gray_frame_cases (frame : ndarray Z) :
  gray_frame frame = true ->
  exists h w, 1024 <= h /\ 1024 <= w /\
              (shape frame = [h; w] \/ shape frame = [1; h; w]).
Proof.
  unfold gray_frame.
  destruct (shape frame) as [|a [|b [|c [|? ?]]]]; try discriminate.
  - intros H. apply andb_prop in H as [Ha Hb].
    apply Nat.leb_le in Ha, Hb. exists a, b. auto.
  - intros H. apply andb_prop in H as [H Hc]. apply andb_prop in H as [Ha Hb].
    apply Nat.eqb_eq in Ha. apply Nat.leb_le in Hb, Hc. subst a.
    exists b, c. auto.
Qed.

Lemma crop_gray (frame : ndarray Z) (g : globals) :
  gray_frame frame = true ->
  exists I,
    crop frame g = (Ok I, g) /\
    shape I = [1024; 1024] /\
    forall i j, item I [i; j] = pixel frame i j.
Proof.
  intros H. destruct (gray_frame_cases frame H) as (h & w & Hh & Hw & [Hs|Hs]).
  - destruct (crop_2d frame g Hs Hh Hw) as (I & Hrun & HI & Hitem).
    exists I. repeat split; trivial.
    intros i j. unfold pixel, ndim. rewrite Hs. apply Hitem.
  - destruct (crop_block frame g Hs Hh Hw) as (I & Hrun & HI & Hitem).
    exists I. repeat split; trivial.
    intros i j. unfold pixel, ndim. rewrite Hs. apply Hitem.
Qed.

(** ** The transform steps *)

Lemma Csum_ext (n : nat) (f h : nat -> C) :
  (forall k, k < n -> f k = h k) -> Csum n f = Csum n h.
Proof.
  induction n as [|n IH]; intros E; cbn [Csum]; trivial.
  rewrite IH, E by auto with arith. reflexivity.
Qed.

Lemma dft2_ext (sgn : R) (m n : nat) (x y : nat -> nat -> C) (k l : nat) :
  (forall p q, p < m -> q < n -> x p q = y p q) ->
  np.fft.dft2 sgn m n x k l = np.fft.dft2 sgn m n y k l.
Proof.
  intros E. unfold np.fft.dft2.
  apply Csum_ext; intros p Hp. apply Csum_ext; intros q Hq.
  rewrite E by assumption. reflexivity.
Qed.

Lemma transform2_square
      (f : nat -> nat -> (nat -> nat -> C) -> nat -> nat -> C) (a : ndarray C) :
  shape a = [1024; 1024] ->
  exists b,
    np.fft.transform2 f a = Ok b /\
    shape b = [1024; 1024] /\
    forall k l, item b [k; l] = f 1024 1024 (fun p q => item a [p; q]) k l.
Proof.
  intros Hs. unfold np.fft.transform2, ndim. rewrite Hs.
  cbn [rev app length Nat.sub].
  change ((1024 =? 0) || (1024 =? 0)) with false. cbv iota.
  eexists. split; [reflexivity|]. split; [reflexivity|].
  intros k l. reflexivity.
Qed.

Lemma shift_index (p q : nat) :
  roll_index (fun d => d / 2) [1024; 1024] [p; q] =
  [(p + 512) mod 1024; (q + 512) mod 1024].
Proof. reflexivity. Qed.

Lemma unshift_index (p q : nat) :
  roll_index (fun d => d - d / 2) [1024; 1024] [p; q] =
  [(p + 512) mod 1024; (q + 512) mod 1024].
Proof. reflexivity. Qed.

Lemma project_square (k l : nat) : project [1024; 1024] [k; l] = [k; l].
Proof. reflexivity. Qed.

Lemma mask_value_grid (d1 d2 : R) (n : nat) (k l : nat) :
  (let d := sqrt (item grid [l] ^ 2 + item grid [k] ^ 2) in
   (1 - 1 / (1 + (d / d1) ^ (2 * n))) * (1 / (1 + (d / d2) ^ (2 * n))))%R =
  mask_value d1 d2 n k l.
Proof. unfold mask_value. rewrite !grid_item. reflexivity. Qed.

(** On a single-channel frame the filter returns the band-pass filtered
    1024 by 1024 subimage. *)
Lemma frame_filter_gray (frame : ndarray Z) (d1 d2 : R) (n : nat) (g : globals) :
  gray_frame frame = true ->
  exists I_filt,
    frame_filter frame d1 d2 n g = (Ok I_filt, g) /\
    shape I_filt = [1024; 1024] /\
    forall i j,
      item I_filt [i; j] = bandpass_filtered (pixel frame) d1 d2 n i j.
Proof.
  intros Hgray.
  destruct (crop_gray frame g Hgray) as (I & Hcrop & HI & Hpix).
  destruct (butterworth_run d1 d2 n g) as (bff & Hbff & Hbs & Hmask).
  destruct (transform2_square (np.fft.dft2 (-1)) (np.ufunc ZtoC I) HI)
    as (I_fft & Hfft & Hfs & Hspec).
  unfold frame_filter.
  rewrite (bind_ok _ _ _ Hcrop), (bind_ok _ _ _ Hbff).
  unfold np.fft.fft2. rewrite (bind_lift_ok _ _ Hfft).
  unfold np.ufunc2. cbn [np.fft.fftshift shape]. rewrite Hfs, Hbs.
  rewrite broadcast_square. cbn [lift bind].
  match goal with
  | |- context [np.fft.ifft2 ?a] =>
      destruct (transform2_square
                  (fun m n x k l =>
                     Cscale (np.fft.dft2 1 m n x k l) (/ (INR m * INR n))%R)
                  a eq_refl) as (I_filt & Hifft & Hos & Hout)
  end.
  unfold np.fft.ifft2. rewrite Hifft. cbn [lift bind ret].
  exists I_filt. split; [reflexivity|]. split; [assumption|].
  intros i j. rewrite Hout. unfold bandpass_filtered.
  f_equal. apply dft2_ext. intros p q _ _.
  cbn [np.fft.ifftshift np.fft.fftshift item shape].
  rewrite unshift_index. unfold centred at 1.
  rewrite !project_square. rewrite Hfs, shift_index.
  rewrite Hmask, mask_value_grid, Hspec. unfold centred.
  f_equal. apply dft2_ext. intros a b _ _.
  cbn [np.ufunc item]. rewrite Hpix. reflexivity.
Qed.

(** ** Counting *)

Lemma filter_map_cons (f : list nat -> bool) (i : nat) (l : list (list nat)) :
  List.length (filter f (map (cons i) l)) =
  List.length (filter (fun t => f (i :: t)) l).
Proof.
  induction l as [|t l IH]; cbn [map filter]; trivial.
  destruct (f (i :: t)); cbn [List.length]; rewrite IH; reflexivity.
Qed.

Lemma count_indices_1d (w : nat) (f : list nat -> bool) :
  List.length (filter f (indices [w])) = count_upto w (fun j => f [j]).
Proof.
  cbn [indices]. induction w as [|w IH]; trivial.
  rewrite seq_S, flat_map_app, filter_app, length_app, IH.
  cbn [count_upto plus flat_map map app filter].
  destruct (f [w]); reflexivity.
Qed.

Lemma count_indices_2d (h w : nat) (f : list nat -> bool) :
  List.length (filter f (indices [h; w])) =
  count_pixels h w (fun i j => f [i; j]).
Proof.
  change (indices [h; w])
    with (flat_map (fun i => map (cons i) (indices [w])) (seq 0 h)).
  induction h as [|h IH]; trivial.
  rewrite seq_S, flat_map_app, filter_app, length_app, IH.
  cbn [count_pixels plus flat_map]. rewrite app_nil_r.
  rewrite filter_map_cons, count_indices_1d. reflexivity.
Qed.

Lemma count_upto_ext (n : nat) (p q : nat -> bool) :
  (forall k, k < n -> p k = q k) -> count_upto n p = count_upto n q.
Proof.
  induction n as [|n IH]; intros E; cbn [count_upto]; trivial.
  rewrite IH, E by auto with arith. reflexivity.
Qed.

Lemma count_pixels_ext (h w : nat) (p q : nat -> nat -> bool) :
  (forall i j, i < h -> j < w -> p i j = q i j) ->
  count_pixels h w p = count_pixels h w q.
Proof.
  induction h as [|h IH]; intros E; cbn [count_pixels]; trivial.
  rewrite IH by auto with arith.
  rewrite (@count_upto_ext w (p h) (q h)) by auto with arith. reflexivity.
Qed.

Lemma count_pixels_le (h w : nat) (p : nat -> nat -> bool) :
  count_pixels h w p <= h * w.
Proof.
  assert (U : forall n q, count_upto n q <= n).
  { induction n as [|n IH]; intros q; cbn [count_upto]; trivial.
    specialize (IH q). destruct (q n); lia. }
  induction h as [|h IH]; cbn [count_pixels]; trivial.
  specialize (U w (p h)). lia.
Qed.

(** On a single-channel frame [calc_floc_proxy] returns the one-entry
    array that holds the number of pixels of the filtered subimage whose
    modulus exceeds 4000. *)
Lemma calc_floc_proxy_gray_run
      (frame : ndarray Z) (d1 d2 : R) (n : nat) (g : globals) :
  gray_frame frame = true ->
  exists r,
    calc_floc_proxy frame d1 d2 n g = (Ok r, g) /\
    shape r = [1] /\
    item r [0] =
    Z.of_nat
      (count_pixels 1024 1024
         (fun i j =>
            Rgtb (Cabs (bandpass_filtered (pixel frame) d1 d2 n i j)) 4000)).
Proof.
  intros Hgray.
  destruct (frame_filter_gray frame d1 d2 n g Hgray)
    as (I_filt & Hrun & Hs & Hitem).
  unfold calc_floc_proxy. rewrite (bind_ok _ _ _ Hrun).
  eexists. split; [reflexivity|]. split; [reflexivity|].
  cbn [np.array1 item]. unfold np.sum, np.absolute, np.ufunc. f_equal.
  cbn [shape item]. rewrite Hs, count_indices_2d.
  apply count_pixels_ext. intros i j _ _.
  rewrite Hitem. reflexivity.
Qed.

(** The proxy of a single-channel frame lies between 0 and the number
    of pixels of the subimage. *)
Lemma calc_floc_proxy_bounds
      (frame : ndarray Z) (d1 d2 : R) (n : nat) (g : globals) :
  gray_frame frame = true ->
  exists r,
    calc_floc_proxy frame d1 d2 n g = (Ok r, g) /\
    (0 <= item r [0%nat] <= 1024 * 1024)%Z.
Proof.
  intros Hgray.
  destruct (calc_floc_proxy_gray_run frame d1 d2 n g Hgray)
    as (r & Hrun & _ & Hr).
  exists r. split; [assumption|]. rewrite Hr.
  match goal with
  | |- context [count_pixels 1024 1024 ?p] =>
      pose proof (count_pixels_le 1024 1024 p) as Hle
  end.
  split; [apply Nat2Z.is_nonneg|].
  apply Nat2Z.inj_le in Hle. rewrite Nat2Z.inj_mul in Hle. exact Hle.
Qed.

(** ** Frames with several channels *)

Lemma broadcast_channels (a b c : nat) :
  c <> 1 -> c <> 1024 -> broadcast_shapes [a; b; c] [1024; 1024] = None.
Proof.
  intros H1 H2. unfold broadcast_shapes. cbn [rev app broadcast_rev].
  apply Nat.eqb_neq in H1, H2. rewrite H1, H2.
  change (1024 =? 1) with false.
  destruct (b =? 1024), (b =? 1); reflexivity.
Qed.

Lemma frame_filter_channels
      (frame : ndarray Z) (d1 d2 : R) (n : nat) (g : globals) (h w c : nat) :
  shape frame = [h; w; c] -> h <> 1 -> c <> 1 -> c <> 1024 ->
  frame_filter frame d1 d2 n g = (Raise ValueError, g).
Proof.
  intros Hs Hh H1 H2.
  destruct (crop_3d frame g Hs Hh) as (I & Hcrop & HI & _).
  destruct (butterworth_run d1 d2 n g) as (bff & Hbff & Hbs & _).
  unfold frame_filter.
  rewrite (bind_ok _ _ _ Hcrop), (bind_ok _ _ _ Hbff).
  unfold np.fft.fft2, np.fft.transform2, ndim.
  cbn [np.ufunc shape]. rewrite HI. cbn [rev app].
  destruct ((Nat.min 1024 w =? 0) || (c =? 0)); [reflexivity|].
  cbn [lift bind]. unfold np.ufunc2. cbn [np.fft.fftshift shape].
  rewrite Hbs, broadcast_channels by assumption. reflexivity.
Qed.

Lemma calc_floc_proxy_channels
      (frame : ndarray Z) (d1 d2 : R) (n : nat) (g : globals) (h w c : nat) :
  shape frame = [h; w; c] -> h <> 1 -> c <> 1 -> c <> 1024 ->
  calc_floc_proxy frame d1 d2 n g = (Raise ValueError, g).
Proof.
  intros Hs Hh H1 H2. unfold calc_floc_proxy.
  apply bind_raise. eapply frame_filter_channels; eassumption.
Qed.

(** ** Selecting the files *)

Lemma selected_spec (r : row) :
  selected r = true <->
  (deployment r = 2 /\ 5000 < frame_count r /\ frame_count r < 30000)%Z.
Proof.
  unfold selected. rewrite !andb_true_iff, Z.eqb_eq, Z.gtb_ltb, !Z.ltb_lt.
  tauto.
Qed.

Lemma In_blob_urls (dbcamhd : dataframe) (url : string) :
  In url (blob_urls dbcamhd) <->
  exists r, In r dbcamhd /\ blob_url r = url /\ selected r = true.
Proof.
  unfold blob_urls. split.
  - intros H.
    apply (Permutation_in _ (Permutation_sym (StringSort.Permuted_sort _))) in H.
    apply in_map_iff in H as (r & Hurl & Hr).
    apply filter_In in Hr as [Hin Hsel].
    exists r. auto.
  - intros (r & Hin & Hurl & Hsel).
    apply (Permutation_in _ (StringSort.Permuted_sort _)).
    apply in_map_iff. exists r. split; trivial.
    apply filter_In. auto.
Qed.

(** C5: a URL is in [blob_urls] exactly when the table has a row with
    that URL whose deployment is 2 and whose frame count lies strictly
    between 5000 and 30000. *)
Theorem blob_urls_selects (dbcamhd : dataframe) (url : string) :
  In url (blob_urls dbcamhd) <->
  exists r, In r dbcamhd /\ blob_url r = url /\
            (deployment r = 2 /\ 5000 < frame_count r /\ frame_count r < 30000)%Z.
Proof.
  rewrite In_blob_urls. split; intros (r & Hin & Hurl & Hsel); exists r.
  - rewrite <- selected_spec. auto.
  - rewrite selected_spec. auto.
Qed.

(** The list is in ascending order. *)
Lemma blob_urls_sorted (dbcamhd : dataframe) :
  LocallySorted (fun a b => String.leb a b = true) (blob_urls dbcamhd).
Proof.
  unfold blob_urls.
  pose proof (StringSort.LocallySorted_sort
                (map blob_url (filter selected dbcamhd))) as H.
  induction H; constructor; auto.
Qed.

(** ** Timestamps *)

Lemma nth_error_flat_map_uniform {A B} (f : A -> list B) (c : nat)
      (l : list A) (k i : nat) (x : A) :
  (forall y, List.length (f y) = c) ->
  nth_error l k = Some x -> i < c ->
  nth_error (flat_map f l) (k * c + i) = nth_error (f x) i.
Proof.
  intros Hc. revert k. induction l as [|y l IH]; intros k Hk Hi.
  - destruct k; discriminate.
  - cbn [flat_map]. destruct k as [|k].
    + injection Hk as ->. cbn [Nat.mul plus].
      apply nth_error_app1. rewrite Hc. assumption.
    + cbn [nth_error] in Hk.
      rewrite nth_error_app2 by (rewrite Hc; cbn [Nat.mul]; lia).
      rewrite Hc. replace (S k * c + i - c) with (k * c + i) by (cbn; lia).
      apply IH; assumption.
Qed.

Lemma length_flat_map_uniform {A B} (f : A -> list B) (c : nat) (l : list A) :
  (forall y, List.length (f y) = c) ->
  List.length (flat_map f l) = List.length l * c.
Proof.
  intros Hc. induction l as [|y l IH]; trivial.
  cbn [flat_map List.length Nat.mul]. rewrite length_app, Hc, IH. reflexivity.
Qed.

Lemma frame_timestamp_inner_spec (conv : R -> R) (fns : list Z) :
  forall t acc,
    frame_timestamp_inner conv t fns acc =
    acc ++ map conv (running_timestamps t fns).
Proof.
  induction fns as [|fn fns IH]; intros t acc; cbn.
  - rewrite app_nil_r. reflexivity.
  - rewrite IH, <- app_assoc. reflexivity.
Qed.

Lemma length_running_timestamps (fns : list Z) :
  forall t, List.length (running_timestamps t fns) = List.length fns.
Proof. induction fns as [|fn fns IH]; intros t; cbn; auto. Qed.

Lemma table_timestamp_first_row (db : dataframe) (url : string) (r : row) :
  first_row db url = Some r -> table_timestamp db url = Ok (timestamp r).
Proof.
  unfold first_row, table_timestamp.
  destruct (filter _ db); cbn; intros H; [discriminate|].
  injection H as ->. reflexivity.
Qed.

Lemma frame_timestamp_loop_spec (conv : R -> R) (db : dataframe)
      (fns : list Z) (urls : list string) :
  (forall u, In u urls -> exists r, first_row db u = Some r) ->
  forall acc,
    frame_timestamp_loop conv db urls fns acc =
    Ok (acc ++ flat_map (file_timestamps conv db fns) urls).
Proof.
  induction urls as [|u urls IH]; intros Hin acc; cbn [frame_timestamp_loop].
  - cbn. rewrite app_nil_r. reflexivity.
  - destruct (Hin u (or_introl eq_refl)) as (r & Hr).
    rewrite (table_timestamp_first_row _ _ Hr).
    rewrite IH by (intros; apply Hin; right; assumption).
    rewrite frame_timestamp_inner_spec, <- app_assoc.
    cbn [flat_map]. unfold file_timestamps at 2. rewrite Hr. reflexivity.
Qed.

Lemma first_row_of_selected (db : dataframe) (url : string) :
  In url (blob_urls db) -> exists r, first_row db url = Some r.
Proof.
  intros H. apply In_blob_urls in H as (r & Hin & Hurl & _).
  unfold first_row.
  destruct (filter (fun r0 => String.eqb (blob_url r0) url) db) eqn:E.
  - assert (Hf : In r (filter (fun r0 => String.eqb (blob_url r0) url) db)).
    { apply filter_In. split; trivial. apply String.eqb_eq. assumption. }
    rewrite E in Hf. destruct Hf.
  - eexists. reflexivity.
Qed.

(** Every frame of a file: its value is the table's timestamp plus the
    offsets of all the frame numbers up to its own. *)
Lemma frame_timestamp_nth (conv : R -> R) (db : dataframe) (fns : list Z)
      (k i : nat) (url : string) :
  nth_error (blob_urls db) k = Some url -> i < List.length fns ->
  exists r l,
    first_row db url = Some r /\
    frame_timestamp conv db (blob_urls db) fns = Ok l /\
    List.length l = List.length (blob_urls db) * List.length fns /\
    nth_error l (k * List.length fns + i) =
    nth_error (map conv (running_timestamps (timestamp r) fns)) i.
Proof.
  intros Hk Hi.
  destruct (first_row_of_selected db url (nth_error_In _ _ Hk)) as (r & Hr).
  assert (Hlen : forall u, List.length (file_timestamps conv db fns u) =
                           List.length fns).
  { intros u. unfold file_timestamps. destruct (first_row db u).
    - rewrite length_map. apply length_running_timestamps.
    - apply repeat_length. }
  exists r. eexists. split; [assumption|]. split.
  - unfold frame_timestamp.
    apply frame_timestamp_loop_spec. intros u. apply first_row_of_selected.
  - cbn [app]. split.
    + apply length_flat_map_uniform. assumption.
    + rewrite (nth_error_flat_map_uniform _ _ _ Hlen Hk Hi).
      unfold file_timestamps. rewrite Hr. reflexivity.
Qed.

(** C4, as the code has it: the timestamp of a frame is not the table's
    timestamp itself.  For the first frame number of each selected file
    it is the timestamp of the file's first row in the table plus the
    frame number divided by 29.97, passed to the date conversion. *)
Theorem frame_timestamp_first (conv : R -> R) (db : dataframe)
        (fn : Z) (rest : list Z) (k : nat) (url : string) :
  nth_error (blob_urls db) k = Some url ->
  exists r l,
    first_row db url = Some r /\
    frame_timestamp conv db (blob_urls db) (fn :: rest) = Ok l /\
    nth_error l (k * List.length (fn :: rest)) =
    Some (conv (timestamp r + IZR fn / 29.97)%R).
Proof.
  intros Hk.
  destruct (@frame_timestamp_nth conv db (fn :: rest) k 0 url Hk)
    as (r & l & Hr & Hrun & _ & Hnth); [cbn; lia|].
  exists r, l. rewrite Nat.add_0_r in Hnth. auto.
Qed.

Lemma frame_timestamp_first_witness :
  exists r l,
    first_row one_file_table "a.mov" = Some r /\
    frame_timestamp utc_datenum one_file_table (blob_urls one_file_table)
                    [7200%Z] = Ok l /\
    nth_error l (0 * 1) = Some (utc_datenum (timestamp r + 7200 / 29.97)%R).
Proof.
  apply (@frame_timestamp_first utc_datenum one_file_table 7200%Z [] 0 "a.mov").
  reflexivity.
Defined.

(** C4 as stated fails: with the table of one file whose timestamp is
    1000 and the frame number 7200, the value that is converted and
    plotted is [1000 + 7200/29.97], not 1000. *)
Lemma frame_timestamp_not_table_value :
  frame_timestamp utc_datenum one_file_table (blob_urls one_file_table)
                  frame_numbers_show_image =
  Ok [utc_datenum (1000 + 7200 / 29.97)%R] /\
  utc_datenum (1000 + 7200 / 29.97)%R <> utc_datenum 1000%R.
Proof.
  split.
  - reflexivity.
  - unfold utc_datenum. lra.
Qed.

(** With several frame numbers the offsets add up from one frame to the
    next: the second frame of a file is placed at the table's timestamp
    plus the offsets of the first and of the second frame number. *)
Lemma frame_timestamp_second (conv : R -> R) (db : dataframe)
      (fn0 fn1 : Z) (rest : list Z) (k : nat) (url : string) :
  nth_error (blob_urls db) k = Some url ->
  exists r l,
    first_row db url = Some r /\
    frame_timestamp conv db (blob_urls db) (fn0 :: fn1 :: rest) = Ok l /\
    nth_error l (k * List.length (fn0 :: fn1 :: rest) + 1) =
    Some (conv (timestamp r + IZR fn0 / 29.97 + IZR fn1 / 29.97)%R).
Proof.
  intros Hk.
  destruct (@frame_timestamp_nth conv db (fn0 :: fn1 :: rest) k 1 url Hk)
    as (r & l & Hr & Hrun & _ & Hnth); [cbn; lia|].
  exists r, l. auto.
Qed.

(** ** The deferred frames *)

Section DelayedFrameList.

Variable pix_fmt : string.
Variable frame_shape : list nat.
Variable frame_dtype : dtype.
Variable fns : list Z.

Local Abbreviation F := (List.length fns).

Lemma delayed_frame_inner_spec (url : string) (m : nat) (l : list Z) :
  forall graph lst,
    delayed_frame_inner pix_fmt frame_shape frame_dtype url m l (graph, lst) =
    (graph ++ map (fun fn => call_get_frame url fn pix_fmt m) l,
     lst ++ map (fun i => from_delayed (List.length graph + i)
                                       frame_shape frame_dtype)
                (seq 0 (List.length l))).
Proof.
  induction l as [|fn l IH]; intros graph lst.
  - cbn. rewrite !app_nil_r. reflexivity.
  - cbn [delayed_frame_inner delayed]. rewrite IH.
    rewrite <- !app_assoc, length_app. cbn [List.length map app seq].
    rewrite Nat.add_0_r. do 3 f_equal.
    rewrite <- seq_shift, map_map. apply map_ext. intros i.
    f_equal. lia.
Qed.

Lemma delayed_frame_loop_spec (urls : list string) :
  forall graph lst,
    delayed_frame_loop pix_fmt frame_shape frame_dtype urls fns (graph, lst) =
    (graph ++ graph_from pix_fmt fns (List.length graph) urls,
     lst ++ frames_from frame_shape frame_dtype fns (List.length graph) urls).
Proof.
  induction urls as [|url urls IH]; intros graph lst.
  - cbn. rewrite !app_nil_r. reflexivity.
  - cbn [delayed_frame_loop delayed]. rewrite delayed_frame_inner_spec, IH.
    rewrite !length_app, length_map. cbn [List.length].
    rewrite <- !app_assoc. cbn [graph_from frames_from url_tasks app].
    replace (List.length graph + 1 + F) with (List.length graph + S F) by lia.
    reflexivity.
Qed.

Lemma length_url_tasks (url : string) (base : nat) :
  List.length (url_tasks pix_fmt fns url base) = S F.
Proof. unfold url_tasks. cbn. rewrite length_map. reflexivity. Qed.

Lemma length_url_frames (base : nat) :
  List.length (url_frames frame_shape frame_dtype fns base) = F.
Proof. unfold url_frames. rewrite length_map, length_seq. reflexivity. Qed.

Lemma length_frames_from (urls : list string) :
  forall base,
    List.length (frames_from frame_shape frame_dtype fns base urls) =
    List.length urls * F.
Proof.
  induction urls as [|u urls IH]; intros base; trivial.
  cbn [frames_from List.length Nat.mul].
  rewrite length_app, length_url_frames, IH. reflexivity.
Qed.

Lemma count_moov_graph_from (urls : list string) :
  forall base,
    List.length (filter is_moov_fetch (graph_from pix_fmt fns base urls)) =
    List.length urls.
Proof.
  assert (Hf : forall url m (l : list Z),
             filter is_moov_fetch
                    (map (fun fn => call_get_frame url fn pix_fmt m) l) = []).
  { intros url m l. induction l; cbn; auto. }
  induction urls as [|u urls IH]; intros base; trivial.
  cbn [graph_from]. rewrite filter_app, length_app, IH.
  unfold url_tasks. cbn [filter is_moov_fetch]. rewrite Hf. reflexivity.
Qed.

Lemma nth_graph_from_moov (urls : list string) :
  forall base k url,
    nth_error urls k = Some url ->
    nth_error (graph_from pix_fmt fns base urls) (k * S F) =
    Some (call_get_moov_atom url).
Proof.
  induction urls as [|u urls IH]; intros base k url Hk.
  - destruct k; discriminate.
  - cbn [graph_from]. destruct k as [|k].
    + injection Hk as ->. reflexivity.
    + cbn [nth_error] in Hk.
      rewrite nth_error_app2 by (rewrite length_url_tasks; cbn; lia).
      rewrite length_url_tasks.
      replace (S k * S F - S F) with (k * S F) by (cbn; lia).
      apply IH. assumption.
Qed.

Lemma nth_graph_from_frame (urls : list string) :
  forall base k i url fn,
    nth_error urls k = Some url -> nth_error fns i = Some fn ->
    nth_error (graph_from pix_fmt fns base urls) (k * S F + 1 + i) =
    Some (call_get_frame url fn pix_fmt (base + k * S F)).
Proof.
  induction urls as [|u urls IH]; intros base k i url fn Hk Hi.
  - destruct k; discriminate.
  - assert (HiF : i < F) by (apply nth_error_Some; congruence).
    cbn [graph_from]. destruct k as [|k].
    + injection Hk as ->. cbn [Nat.mul plus].
      rewrite nth_error_app1 by (rewrite length_url_tasks; lia).
      unfold url_tasks. cbn [nth_error].
      rewrite nth_error_map, Hi. cbn. rewrite Nat.add_0_r. reflexivity.
    + cbn [nth_error] in Hk.
      rewrite nth_error_app2 by (rewrite length_url_tasks; cbn; lia).
      rewrite length_url_tasks.
      replace (S k * S F + 1 + i - S F) with (k * S F + 1 + i) by (cbn; lia).
      rewrite (IH _ _ _ _ _ Hk Hi). do 2 f_equal. cbn. lia.
Qed.

Lemma nth_frames_from (urls : list string) :
  forall base k i url,
    nth_error urls k = Some url -> i < F ->
    nth_error (frames_from frame_shape frame_dtype fns base urls) (k * F + i) =
    Some (from_delayed (base + k * S F + 1 + i) frame_shape frame_dtype).
Proof.
  induction urls as [|u urls IH]; intros base k i url Hk Hi.
  - destruct k; discriminate.
  - cbn [frames_from]. destruct k as [|k].
    + cbn [Nat.mul plus].
      rewrite nth_error_app1 by (rewrite length_url_frames; lia).
      unfold url_frames. rewrite nth_error_map, nth_error_seq.
      destruct (Nat.ltb_spec i F); [|lia]. cbn. rewrite Nat.add_0_r.
      reflexivity.
    + cbn [nth_error] in Hk.
      rewrite nth_error_app2 by (rewrite length_url_frames; cbn; lia).
      rewrite length_url_frames.
      replace (S k * F + i - F) with (k * F + i) by (cbn; lia).
      rewrite (IH _ _ _ _ Hk Hi). do 2 f_equal. cbn. lia.
Qed.

Lemma declared_shape_frames_from (urls : list string) :
  forall base a,
    In a (frames_from frame_shape frame_dtype fns base urls) ->
    declared_shape a = frame_shape /\ declared_dtype a = frame_dtype.
Proof.
  induction urls as [|u urls IH]; intros base a Ha; [destruct Ha|].
  cbn [frames_from] in Ha. apply in_app_or in Ha as [Ha|Ha].
  - unfold url_frames in Ha. apply in_map_iff in Ha as (i & <- & _). auto.
  - eapply IH. eassumption.
Qed.

Lemma stack_uniform (l : list lazy_frame) :
  l <> [] ->
  (forall a, In a l ->
             declared_shape a = frame_shape /\ declared_dtype a = frame_dtype) ->
  stack l = Ok {| chunks := l;
                  dask_shape := List.length l :: frame_shape;
                  dask_dtype := frame_dtype |}.
Proof.
  destruct l as [|a rest]; [congruence|]. intros _ H. unfold stack.
  destruct (H a (or_introl eq_refl)) as [Hs Hd]. rewrite Hs, Hd.
  replace (forallb _ rest) with true; [reflexivity|].
  symmetry. apply forallb_forall. intros b Hb.
  destruct (H b (or_intror Hb)) as [Hbs _]. rewrite Hbs.
  unfold same_shape. destruct (list_eq_dec Nat.eq_dec frame_shape frame_shape);
    congruence.
Qed.

End DelayedFrameList.

(** C7: the loop creates one moov-atom fetch per URL, in all as many as
    there are URLs; frame [i] of URL [k] is element [k * |frame_numbers|
    + i] of the list, has the declared shape and dtype, and is a fetch
    of that URL and frame number that uses the moov atom of URL [k]
    (node [k * (|frame_numbers| + 1)] of the graph, the same for every
    frame of the URL); the stacked array has [|urls| * |frame_numbers|]
    chunks, the list itself. *)
Theorem delayed_frame_list_layout
        (pix_fmt : string) (frame_shape : list nat) (frame_dtype : dtype)
        (urls : list string) (fns : list Z)
        (k i : nat) (url : string) (fn : Z) :
  nth_error urls k = Some url -> nth_error fns i = Some fn ->
  let graph :=
    fst (delayed_frame_list pix_fmt frame_shape frame_dtype urls fns) in
  let lst :=
    snd (delayed_frame_list pix_fmt frame_shape frame_dtype urls fns) in
  List.length (filter is_moov_fetch graph) = List.length urls /\
  List.length lst = List.length urls * List.length fns /\
  stack lst =
  Ok {| chunks := lst;
        dask_shape := (List.length urls * List.length fns) :: frame_shape;
        dask_dtype := frame_dtype |} /\
  exists m key,
    m = k * S (List.length fns) /\
    nth_error graph m = Some (call_get_moov_atom url) /\
    nth_error lst (k * List.length fns + i) =
    Some (from_delayed key frame_shape frame_dtype) /\
    nth_error graph key = Some (call_get_frame url fn pix_fmt m).
Proof.
  intros Hk Hi. unfold delayed_frame_list.
  rewrite delayed_frame_loop_spec. cbn [fst snd app List.length].
  assert (HiF : i < List.length fns) by (apply nth_error_Some; congruence).
  assert (Hlen := length_frames_from frame_shape frame_dtype fns urls 0).
  split; [apply count_moov_graph_from|]. split; [assumption|]. split.
  - rewrite <- Hlen. apply stack_uniform.
    + intros E. rewrite E in Hlen. cbn in Hlen.
      destruct urls; [destruct k; discriminate|]. cbn in Hlen. lia.
    + apply declared_shape_frames_from.
  - exists (k * S (List.length fns)), (k * S (List.length fns) + 1 + i).
    split; [reflexivity|]. split; [apply nth_graph_from_moov; assumption|].
    split.
    + rewrite (nth_frames_from frame_shape frame_dtype fns urls 0 k Hk HiF).
      reflexivity.
    + rewrite (nth_graph_from_frame pix_fmt fns urls 0 k i Hk Hi).
      reflexivity.
Qed.

Lemma delayed_frame_list_layout_witness :
  let urls := ["a.mov"; "b.mov"]%string in
  let graph :=
    fst (delayed_frame_list "gray16le" [1080; 1920] uint16 urls
                            frame_numbers_floc_analysis) in
  let lst :=
    snd (delayed_frame_list "gray16le" [1080; 1920] uint16 urls
                            frame_numbers_floc_analysis) in
  List.length (filter is_moov_fetch graph) = 2 /\
  List.length lst = 2 * 6 /\
  stack lst =
  Ok {| chunks := lst; dask_shape := [2 * 6; 1080; 1920];
        dask_dtype := uint16 |} /\
  exists m key,
    m = 1 * 7 /\
    nth_error graph m = Some (call_get_moov_atom "b.mov") /\
    nth_error lst (1 * 6 + 2) = Some (from_delayed key [1080; 1920] uint16) /\
    nth_error graph key = Some (call_get_frame "b.mov" 4052 "gray16le" m).
Proof.
  apply (@delayed_frame_list_layout
           "gray16le" [1080; 1920] uint16 ["a.mov"; "b.mov"]%string
           frame_numbers_floc_analysis 1 2 "b.mov" 4052%Z);
    reflexivity.
Defined.

(** ** Single-channel frames: the filter and the proxy *)

(** C3, as the code has it: for a single-channel frame of at least 1024
    by 1024 pixels (two-dimensional, or a block of shape (1, h, w))
    [frame_filter] returns the 1024 by 1024 array obtained from the
    cropped subimage by the 2D transform, [fftshift], the product with
    the Butterworth mask, [ifftshift] and the inverse 2D transform. *)
Theorem frame_filter_steps
        (frame : ndarray Z) (d1 d2 : R) (n : nat) (g : globals) (i j : nat) :
  gray_frame frame = true -> i < 1024 -> j < 1024 ->
  exists I_filt,
    frame_filter frame d1 d2 n g = (Ok I_filt, g) /\
    shape I_filt = [1024; 1024] /\
    item I_filt [i; j] = bandpass_filtered (pixel frame) d1 d2 n i j.
Proof.
  intros Hgray _ _.
  destruct (frame_filter_gray frame d1 d2 n g Hgray) as (I & Hrun & Hs & Hi).
  exists I. auto.
Qed.

Lemma frame_filter_steps_witness :
  exists I_filt,
    frame_filter (black [1080; 1920]) 20 400 4 fresh = (Ok I_filt, fresh) /\
    shape I_filt = [1024; 1024] /\
    item I_filt [5; 7] =
    bandpass_filtered (pixel (black [1080; 1920])) 20 400 4 5 7.
Proof.
  apply (@frame_filter_steps (black [1080; 1920]) 20 400 4 fresh 5 7);
    [reflexivity | lia | lia].
Defined.

(** C3 as stated fails outside these frames.  The crop of a frame of
    shape (1080, 1920, 3) keeps the channel axis, it is not a 1024 by
    1024 image, and no inverse transform is returned; nor is one for a
    frame smaller than the mask. *)
Lemma frame_filter_other_layouts_raise :
  frame_filter (black [1080; 1920; 3]) 20 400 4 fresh =
  (Raise ValueError, fresh) /\
  frame_filter (black [500; 500]) 20 400 4 fresh =
  (Raise ValueError, fresh).
Proof.
  split.
  - apply (@frame_filter_channels _ 20 400 4 fresh 1080 1920 3);
      [reflexivity | lia | lia | lia].
  - vm_compute. reflexivity.
Qed.

(** On single-channel frames the proxy is what the notebook says it is:
    for a frame of at least 1024 by 1024 pixels and positive parameters
    [calc_floc_proxy] returns an array of length one whose entry is the
    number of pixels of the filtered subimage whose modulus is greater
    than 4000. *)
Lemma calc_floc_proxy_counts
      (frame : ndarray Z) (d1 d2 : R) (n : nat) (g : globals) :
  gray_frame frame = true -> (0 < d1)%R -> (0 < d2)%R -> 0 < n ->
  exists r,
    calc_floc_proxy frame d1 d2 n g = (Ok r, g) /\
    shape r = [1] /\
    item r [0] =
    Z.of_nat
      (count_pixels 1024 1024
         (fun i j =>
            Rgtb (Cabs (bandpass_filtered (pixel frame) d1 d2 n i j)) 4000)).
Proof.
  intros Hgray _ _ _. apply calc_floc_proxy_gray_run. assumption.
Qed.

Lemma calc_floc_proxy_counts_example :
  exists r,
    calc_floc_proxy (black [1; 1080; 1920]) 20 400 4 fresh = (Ok r, fresh) /\
    shape r = [1] /\
    item r [0] =
    Z.of_nat
      (count_pixels 1024 1024
         (fun i j =>
            Rgtb (Cabs (bandpass_filtered (pixel (black [1; 1080; 1920]))
                                          20 400 4 i j)) 4000)).
Proof.
  apply (@calc_floc_proxy_counts (black [1; 1080; 1920]) 20 400 4 fresh);
    [reflexivity | lra | lra | lia].
Defined.

(** C1 is not met on a frame with colour channels: for a frame of shape
    (1080, 1920, 3), the layout the show_image notebook fetches, the
    call raises [ValueError] at the product with the mask and returns
    no count. *)
Theorem calc_floc_proxy_rgb_raises :
  calc_floc_proxy (black [1080; 1920; 3]) 20 400 4 fresh =
  (Raise ValueError, fresh).
Proof.
  apply (@calc_floc_proxy_channels _ 20 400 4 fresh 1080 1920 3);
    [reflexivity | lia | lia | lia].
Qed.

(** The blocks of the show_image notebook have shape (1, 1080, 1920, 3);
    they fail in the same way. *)
Lemma calc_floc_proxy_rgb_block_raises :
  calc_floc_proxy (block_of (black [1080; 1920; 3])) 20 400 4 fresh =
  (Raise ValueError, fresh).
Proof. vm_compute. reflexivity. Qed.

(** ** The layout of the frame *)

(** C9, as the code has it: the crop depends on the layout.  A frame
    of shape (1, h, w) is squeezed and [frame_filter] returns a 1024 by
    1024 result; any other three-dimensional frame is cropped along its
    first two axes only and keeps its third, so that the subimage of a
    frame of shape (1080, 1920, 3) has shape (1024, 1024, 3). *)
Theorem frame_filter_layout
        (frame : ndarray Z) (d1 d2 : R) (n : nat) (g : globals) (h w c : nat) :
  (shape frame = [1; h; w] -> 1024 <= h -> 1024 <= w ->
   exists I_filt,
     frame_filter frame d1 d2 n g = (Ok I_filt, g) /\
     shape I_filt = [1024; 1024]) /\
  (shape frame = [h; w; c] -> h <> 1 ->
   exists I,
     crop frame g = (Ok I, g) /\
     shape I = [Nat.min 1024 h; Nat.min 1024 w; c] /\
     forall i j k, item I [i; j; k] = item frame [i; j; k]).
Proof.
  split.
  - intros Hs Hh Hw.
    assert (Hgray : gray_frame frame = true).
    { unfold gray_frame. rewrite Hs.
      apply Nat.leb_le in Hh, Hw. rewrite Hh, Hw. reflexivity. }
    destruct (frame_filter_gray frame d1 d2 n g Hgray) as (I & Hrun & HI & _).
    exists I. auto.
  - intros Hs Hh. apply crop_3d; assumption.
Qed.

Lemma frame_filter_layout_witness :
  (exists I_filt,
     frame_filter (black [1; 1080; 1920]) 20 400 4 fresh = (Ok I_filt, fresh) /\
     shape I_filt = [1024; 1024]) /\
  (exists I,
     crop (black [1080; 1920; 3]) fresh = (Ok I, fresh) /\
     shape I = [1024; 1024; 3]).
Proof.
  split.
  - apply (proj1 (@frame_filter_layout (black [1; 1080; 1920]) 20 400 4 fresh
                                       1080 1920 0));
      [reflexivity | lia | lia].
  - destruct (proj2 (@frame_filter_layout (black [1080; 1920; 3]) 20 400 4
                                          fresh 1080 1920 3)
                    eq_refl ltac:(lia)) as (I & Hrun & Hs & _).
    exists I. split; [exact Hrun | exact Hs].
Defined.

(** C9 as stated fails: for the frame of shape (1080, 1920, 3) neither
    a three-dimensional array nor a count over the channels comes
    back; and a block of shape (1, 500, 500) is squeezed but gives no
    1024 by 1024 result. *)
Lemma frame_filter_rgb_no_result :
  ~ (exists a g, frame_filter (black [1080; 1920; 3]) 20 400 4 fresh
                 = (Ok a, g)) /\
  ~ (exists r g, calc_floc_proxy (black [1080; 1920; 3]) 20 400 4 fresh
                 = (Ok r, g)) /\
  ~ (exists a g, frame_filter (black [1; 500; 500]) 20 400 4 fresh
                 = (Ok a, g)).
Proof.
  split; [|split]; intros (a & g & H).
  - rewrite (@frame_filter_channels _ 20 400 4 fresh 1080 1920 3) in H;
      [discriminate | reflexivity | lia | lia | lia].
  - rewrite (@calc_floc_proxy_channels _ 20 400 4 fresh 1080 1920 3) in H;
      [discriminate | reflexivity | lia | lia | lia].
  - assert (E : frame_filter (black [1; 500; 500]) 20 400 4 fresh =
                (Raise ValueError, fresh)) by (vm_compute; reflexivity).
    rewrite E in H. discriminate.
Qed.

(** ** Statelessness *)

Lemma stateless_ret {A} (a : A) : stateless (ret a).
Proof. exists (Ok a). reflexivity. Qed.

Lemma stateless_lift {A} (r : result A) : stateless (lift r).
Proof. exists r. reflexivity. Qed.

Lemma stateless_bind {A B} (c : M A) (k : A -> M B) :
  stateless c -> (forall a, stateless (k a)) -> stateless (bind c k).
Proof.
  intros [r Hc] Hk. destruct r as [a|e].
  - destruct (Hk a) as [r' Hr']. exists r'. intros g.
    unfold bind. rewrite Hc. apply Hr'.
  - exists (Raise e). intros g. unfold bind. rewrite Hc. reflexivity.
Qed.

Ltac stateless_steps :=
  repeat first
    [ apply stateless_ret
    | apply stateless_lift
    | apply stateless_bind; [|intro] ].

Lemma stateless_butterworth (d1 d2 : R) (n : nat) :
  stateless (butterworth d1 d2 n).
Proof. unfold butterworth, np.meshgrid. stateless_steps. Qed.

Lemma stateless_crop (frame : ndarray Z) : stateless (crop frame).
Proof.
  unfold crop. destruct ((ndim frame =? 3) && (hd 0 (shape frame) =? 1));
    stateless_steps.
Qed.

Lemma stateless_frame_filter (frame : ndarray Z) (d1 d2 : R) (n : nat) :
  stateless (frame_filter frame d1 d2 n).
Proof.
  unfold frame_filter.
  apply stateless_bind; [apply stateless_crop|intro].
  apply stateless_bind; [apply stateless_butterworth|intro].
  stateless_steps.
Qed.

Lemma stateless_calc_floc_proxy (frame : ndarray Z) (d1 d2 : R) (n : nat) :
  stateless (calc_floc_proxy frame d1 d2 n).
Proof.
  unfold calc_floc_proxy.
  apply stateless_bind; [apply stateless_frame_filter|intro].
  stateless_steps.
Qed.

Lemma stateless_runs {A} (c : M A) (g g' : globals) :
  stateless c -> fst (c g) = fst (c g') /\ snd (c g) = g.
Proof. intros [r H]. rewrite (H g), (H g'). split; reflexivity. Qed.

(** C6: the three filter functions are stateless and pure.  Run in any
    two states of the notebook's globals on the same arguments, each
    gives the same outcome, and each leaves the globals as they were. *)
Theorem filter_functions_pure
        (frame : ndarray Z) (d1 d2 : R) (n : nat) (g g' : globals) :
  (fst (butterworth d1 d2 n g) = fst (butterworth d1 d2 n g') /\
   snd (butterworth d1 d2 n g) = g) /\
  (fst (frame_filter frame d1 d2 n g) = fst (frame_filter frame d1 d2 n g') /\
   snd (frame_filter frame d1 d2 n g) = g) /\
  (fst (calc_floc_proxy frame d1 d2 n g) =
   fst (calc_floc_proxy frame d1 d2 n g') /\
   snd (calc_floc_proxy frame d1 d2 n g) = g).
Proof.
  split; [|split]; apply stateless_runs.
  - apply stateless_butterworth.
  - apply stateless_frame_filter.
  - apply stateless_calc_floc_proxy.
Qed.

(** A cell, by contrast, assigns globals. *)
Lemma cell_show_filter_assigns : ~ stateless cell_show_filter.
Proof.
  intros [r H]. specialize (H fresh).
  assert (E : g_d1 (snd (cell_show_filter fresh)) = Some 20%R).
  { unfold cell_show_filter, bind, store, load, fresh. cbn [g_d1 g_d2 g_n].
    match goal with
    | |- context [butterworth ?a ?b ?c ?s] =>
        destruct (butterworth_run a b c s) as (bff & -> & _)
    end.
    reflexivity. }
  rewrite H in E. discriminate.
Qed.

(** ** Exceptions *)

Section Exceptions.

Variable moov : Type.
Variable get_moov_atom : string -> result moov.
Variable get_frame : string -> Z -> string -> moov -> result (ndarray Z).
Variable read_json : string -> result dataframe.

Lemma frame_filter_propagates
      (frame : ndarray Z) (d1 d2 : R) (n : nat) (g : globals) (e : exn) :
  (crop frame g = (Raise e, g) ->
   frame_filter frame d1 d2 n g = (Raise e, g)) /\
  (forall I,
      crop frame g = (Ok I, g) ->
      np.fft.fft2 (np.ufunc ZtoC I) = Raise e ->
      frame_filter frame d1 d2 n g = (Raise e, g)) /\
  (forall I bff I_fft,
      crop frame g = (Ok I, g) ->
      butterworth d1 d2 n g = (Ok bff, g) ->
      np.fft.fft2 (np.ufunc ZtoC I) = Ok I_fft ->
      np.ufunc2 Cscale (np.fft.fftshift I_fft) bff = Raise e ->
      frame_filter frame d1 d2 n g = (Raise e, g)) /\
  (forall I bff I_fft I_fft_shift_filt,
      crop frame g = (Ok I, g) ->
      butterworth d1 d2 n g = (Ok bff, g) ->
      np.fft.fft2 (np.ufunc ZtoC I) = Ok I_fft ->
      np.ufunc2 Cscale (np.fft.fftshift I_fft) bff = Ok I_fft_shift_filt ->
      np.fft.ifft2 (np.fft.ifftshift I_fft_shift_filt) = Raise e ->
      frame_filter frame d1 d2 n g = (Raise e, g)).
Proof.
  unfold frame_filter. repeat split.
  - intros H. apply bind_raise. assumption.
  - intros I Hc Hf.
    destruct (butterworth_run d1 d2 n g) as (bff & Hb & _).
    rewrite (bind_ok _ _ _ Hc), (bind_ok _ _ _ Hb).
    apply bind_lift_raise. assumption.
  - intros I bff I_fft Hc Hb Hf Hm.
    rewrite (bind_ok _ _ _ Hc), (bind_ok _ _ _ Hb), (bind_lift_ok _ _ Hf).
    apply bind_lift_raise. assumption.
  - intros I bff I_fft P Hc Hb Hf Hm Hi.
    rewrite (bind_ok _ _ _ Hc), (bind_ok _ _ _ Hb), (bind_lift_ok _ _ Hf).
    cbv zeta. rewrite (bind_lift_ok _ _ Hm).
    apply bind_lift_raise. assumption.
Qed.

Lemma crop_propagates (frame : ndarray Z) (g : globals) (e : exn) :
  np.getitem frame
    (if (ndim frame =? 3) && (hd 0 (shape frame) =? 1)
     then [At 0; Slice 0 1024; Slice 0 1024]
     else [Slice 0 1024; Slice 0 1024]) = Raise e ->
  crop frame g = (Raise e, g).
Proof.
  unfold crop. destruct ((ndim frame =? 3) && (hd 0 (shape frame) =? 1));
    intros H.
  - apply bind_lift_raise. assumption.
  - unfold lift. rewrite H. reflexivity.
Qed.

Lemma compute_task_propagates
      (graph : list task) (key : nat) (url : string) (fn : Z)
      (fmt : string) (mk : nat) (murl : string) (e : exn) :
  nth_error graph key = Some (call_get_frame url fn fmt mk) ->
  nth_error graph mk = Some (call_get_moov_atom murl) ->
  (get_moov_atom murl = Raise e ->
   compute_task get_moov_atom get_frame graph key = Raise e) /\
  (forall m, get_moov_atom murl = Ok m ->
             get_frame url fn fmt m = Raise e ->
             compute_task get_moov_atom get_frame graph key = Raise e).
Proof.
  intros Hk Hm. unfold compute_task. rewrite Hk, Hm. split.
  - intros ->. reflexivity.
  - intros m -> H. exact H.
Qed.

(** C8: no exception is caught, replaced or dropped.  An exception [e]
    raised by a call of a library -- the indexing, the transforms and
    the product in [frame_filter], the two fetches behind a deferred
    frame, the stacking, the reading of the table -- is the outcome of
    the function or cell that made the call, and of everything that
    called it, and the globals are left as they were. *)
Theorem exceptions_propagate
        (frame : ndarray Z) (d1 d2 : R) (n : nat) (g : globals) (e : exn) :
  (* inside the filter functions *)
  (np.getitem frame
     (if (ndim frame =? 3) && (hd 0 (shape frame) =? 1)
      then [At 0; Slice 0 1024; Slice 0 1024]
      else [Slice 0 1024; Slice 0 1024]) = Raise e ->
   frame_filter frame d1 d2 n g = (Raise e, g)) /\
  (forall I,
      crop frame g = (Ok I, g) ->
      np.fft.fft2 (np.ufunc ZtoC I) = Raise e ->
      frame_filter frame d1 d2 n g = (Raise e, g)) /\
  (forall I bff I_fft,
      crop frame g = (Ok I, g) ->
      butterworth d1 d2 n g = (Ok bff, g) ->
      np.fft.fft2 (np.ufunc ZtoC I) = Ok I_fft ->
      np.ufunc2 Cscale (np.fft.fftshift I_fft) bff = Raise e ->
      frame_filter frame d1 d2 n g = (Raise e, g)) /\
  (forall I bff I_fft I_fft_shift_filt,
      crop frame g = (Ok I, g) ->
      butterworth d1 d2 n g = (Ok bff, g) ->
      np.fft.fft2 (np.ufunc ZtoC I) = Ok I_fft ->
      np.ufunc2 Cscale (np.fft.fftshift I_fft) bff = Ok I_fft_shift_filt ->
      np.fft.ifft2 (np.fft.ifftshift I_fft_shift_filt) = Raise e ->
      frame_filter frame d1 d2 n g = (Raise e, g)) /\
  (frame_filter frame d1 d2 n g = (Raise e, g) ->
   calc_floc_proxy frame d1 d2 n g = (Raise e, g)) /\
  (* behind a deferred frame *)
  (forall graph key url fn fmt mk murl,
      nth_error graph key = Some (call_get_frame url fn fmt mk) ->
      nth_error graph mk = Some (call_get_moov_atom murl) ->
      (get_moov_atom murl = Raise e ->
       compute_task get_moov_atom get_frame graph key = Raise e) /\
      (forall m, get_moov_atom murl = Ok m ->
                 get_frame url fn fmt m = Raise e ->
                 compute_task get_moov_atom get_frame graph key = Raise e)) /\
  (forall graph arr k a,
      nth_error (chunks arr) k = Some a ->
      compute_task get_moov_atom get_frame graph (value a) = Raise e ->
      compute_floc_proxy get_moov_atom get_frame graph arr d1 d2 n k g =
      (Raise e, g)) /\
  (forall graph arr k fetched,
      compute_frame get_moov_atom get_frame graph arr k = Ok fetched ->
      calc_floc_proxy (block_of fetched) d1 d2 n g = (Raise e, g) ->
      compute_floc_proxy get_moov_atom get_frame graph arr d1 d2 n k g =
      (Raise e, g)) /\
  (* in the cells *)
  (forall fmt fshape fdtype fns k,
      read_json "dbcamhd.json" = Raise e ->
      notebook_floc_proxy get_moov_atom get_frame read_json
                          fmt fshape fdtype fns d1 d2 n k g = (Raise e, g)) /\
  (forall fmt fshape fdtype fns k db,
      read_json "dbcamhd.json" = Ok db ->
      stack (snd (delayed_frame_list fmt fshape fdtype (blob_urls db) fns))
      = Raise e ->
      notebook_floc_proxy get_moov_atom get_frame read_json
                          fmt fshape fdtype fns d1 d2 n k g = (Raise e, g)) /\
  (forall fmt fshape fdtype fns k db arr,
      read_json "dbcamhd.json" = Ok db ->
      stack (snd (delayed_frame_list fmt fshape fdtype (blob_urls db) fns))
      = Ok arr ->
      compute_floc_proxy get_moov_atom get_frame
        (fst (delayed_frame_list fmt fshape fdtype (blob_urls db) fns))
        arr d1 d2 n k g = (Raise e, g) ->
      notebook_floc_proxy get_moov_atom get_frame read_json
                          fmt fshape fdtype fns d1 d2 n k g = (Raise e, g)).
Proof.
  destruct (frame_filter_propagates frame d1 d2 n g e) as (H1 & H2 & H3 & H4).
  repeat match goal with |- _ /\ _ => split end; trivial.
  - intros H. apply H1. apply crop_propagates. assumption.
  - intros H. unfold calc_floc_proxy. apply bind_raise. assumption.
  - intros graph key url fn fmt mk murl Hk Hm.
    eapply compute_task_propagates; eassumption.
  - intros graph arr k a Ha Ht. unfold compute_floc_proxy, compute_frame.
    rewrite Ha. apply bind_lift_raise. assumption.
  - intros graph arr k fetched Hf Hc. unfold compute_floc_proxy.
    rewrite (bind_lift_ok _ _ Hf). assumption.
  - intros fmt fshape fdtype fns k H. unfold notebook_floc_proxy.
    apply bind_lift_raise. assumption.
  - intros fmt fshape fdtype fns k db Hr Hs. unfold notebook_floc_proxy.
    rewrite (bind_lift_ok _ _ Hr).
    destruct (delayed_frame_list fmt fshape fdtype (blob_urls db) fns)
      as [graph lst].
    apply bind_lift_raise. assumption.
  - intros fmt fshape fdtype fns k db arr Hr Hs Hc.
    unfold notebook_floc_proxy. rewrite (bind_lift_ok _ _ Hr).
    destruct (delayed_frame_list fmt fshape fdtype (blob_urls db) fns)
      as [graph lst].
    cbn [fst snd] in Hs, Hc. rewrite (bind_lift_ok _ _ Hs). assumption.
Qed.

End Exceptions.

Lemma exceptions_propagate_witness :
  notebook_floc_proxy (fun _ => Ok tt) failing_get_frame
                      (fun _ => Ok one_file_table)
                      "gray16le" [1080; 1920] uint16
                      frame_numbers_floc_analysis 20 400 4 0 fresh =
  (Raise (OSError "decode failure"), fresh).
Proof.
  destruct (@exceptions_propagate
              unit (fun _ => Ok tt) failing_get_frame
              (fun _ => Ok one_file_table)
              (black [1]) 20 400 4 fresh (OSError "decode failure"))
    as (_ & _ & _ & _ & _ & Htask & Hchunk & _ & _ & _ & Hcells).
  eapply Hcells; [reflexivity | reflexivity |].
  eapply Hchunk; [reflexivity |].
  eapply (fun Hk Hm => proj2 (Htask _ 1 "a.mov"%string 3841%Z
                                    "gray16le"%string 0 "a.mov"%string Hk Hm));
    reflexivity.
Defined.

(** ** A frame computed through: the black frame *)

Lemma Csum_zero (n : nat) (f : nat -> C) :
  (forall k, k < n -> f k = C0) -> Csum n f = C0.
Proof.
  induction n as [|n IH]; intros E; cbn [Csum]; trivial.
  rewrite IH, E by auto with arith.
  unfold Cadd, C0. cbn [Cre Cim fst snd]. f_equal; lra.
Qed.

Lemma dft2_zero (sgn : R) (m n : nat) (x : nat -> nat -> C) (k l : nat) :
  (forall p q, p < m -> q < n -> x p q = C0) ->
  np.fft.dft2 sgn m n x k l = C0.
Proof.
  intros E. unfold np.fft.dft2.
  apply Csum_zero; intros p Hp. apply Csum_zero; intros q Hq.
  rewrite E by assumption.
  unfold Cmul, C0. cbn [Cre Cim fst snd]. f_equal; ring.
Qed.

Lemma Cscale_zero (r : R) : Cscale C0 r = C0.
Proof. unfold Cscale, C0. cbn [Cre Cim fst snd]. f_equal; ring. Qed.

Lemma bandpass_filtered_zero (d1 d2 : R) (n : nat) (i j : nat) :
  bandpass_filtered (fun _ _ => 0%Z) d1 d2 n i j = C0.
Proof.
  unfold bandpass_filtered. rewrite dft2_zero; [apply Cscale_zero|].
  intros p q _ _. unfold centred. rewrite dft2_zero; [apply Cscale_zero|].
  intros a b _ _. reflexivity.
Qed.

Lemma count_pixels_none (h w : nat) (p : nat -> nat -> bool) :
  (forall i j, i < h -> j < w -> p i j = false) -> count_pixels h w p = 0.
Proof.
  intros E. rewrite (@count_pixels_ext h w p (fun _ _ => false) E).
  clear. assert (U : count_upto w (fun _ => false) = 0).
  { induction w as [|w IH]; cbn [count_upto]; trivial.
    rewrite IH. reflexivity. }
  induction h as [|h IH]; cbn [count_pixels]; trivial.
  rewrite IH, U. reflexivity.
Qed.

(** The floc proxy of a black frame is 0. *)
Lemma floc_proxy_of_black_frame :
  exists r,
    calc_floc_proxy (black [1080; 1920]) 20 400 4 fresh = (Ok r, fresh) /\
    shape r = [1] /\ item r [0] = 0%Z.
Proof.
  destruct (@calc_floc_proxy_gray_run (black [1080; 1920]) 20 400 4 fresh
                                      eq_refl) as (r & Hrun & Hs & Hr).
  exists r. repeat split; trivial.
  rewrite Hr, count_pixels_none; trivial.
  intros i j _ _.
  replace (pixel (black [1080; 1920])) with (fun (_ _ : nat) => 0%Z)
    by reflexivity.
  rewrite bandpass_filtered_zero.
  unfold Cabs, C0, Rgtb. cbn [Cre Cim fst snd].
  rewrite Rmult_0_l, Rplus_0_l, sqrt_0.
  destruct (Rlt_dec 4000 0); [lra|reflexivity].
Qed.

(** ** The example cell *)

(** The cell that filters the example frame binds [I_filt] to what
    [frame_filter] returns for the globals [frame], [d1], [d2] and [n];
    the global [bff] plays no part. *)
Lemma cell_example_frame_run
      (g : globals) (frame : ndarray Z) (d1 d2 : R) (n : nat) :
  g_frame g = Some frame -> g_d1 g = Some d1 -> g_d2 g = Some d2 ->
  g_n g = Some n -> gray_frame frame = true ->
  exists I_filt,
    frame_filter frame d1 d2 n g = (Ok I_filt, g) /\
    cell_example_frame g =
    (Ok tt,
     mk_globals (g_frame g) (g_d1 g) (g_d2 g) (g_n g) (g_bff g) (Some I_filt)).
Proof.
  intros Hf H1 H2 Hn Hgray.
  destruct (frame_filter_gray frame d1 d2 n g Hgray) as (I & Hrun & _).
  exists I. split; [assumption|].
  unfold cell_example_frame, bind, load, store.
  rewrite Hf, H1, H2, Hn, Hrun. cbv beta iota. rewrite Hf, H1, H2, Hn.
  reflexivity.
Qed.

(** In a fresh kernel the cell stops at the first unbound name. *)
Lemma cell_example_frame_unbound :
  cell_example_frame fresh = (Raise (NameError "frame"), fresh).
Proof. reflexivity. Qed.

(** * Further properties of the notebooks' code *)

(** ** The mask: range and symmetries *)

Lemma lowcut_range (a : R) : (0 <= a -> 0 <= 1 - 1 / (1 + a) <= 1)%R.
Proof.
  intros Ha.
  assert (H1 : (0 < 1 + a)%R) by lra.
  assert (H2 : (0 < / (1 + a))%R) by (apply Rinv_0_lt_compat; assumption).
  assert (H3 : (/ (1 + a) <= 1)%R).
  { rewrite <- Rinv_1. apply Rinv_le_contravar; lra. }
  unfold Rdiv. rewrite Rmult_1_l. lra.
Qed.

Lemma highcut_range (a : R) : (0 <= a -> 0 <= 1 / (1 + a) <= 1)%R.
Proof.
  intros Ha.
  assert (H1 : (0 < 1 + a)%R) by lra.
  assert (H2 : (0 < / (1 + a))%R) by (apply Rinv_0_lt_compat; assumption).
  assert (H3 : (/ (1 + a) <= 1)%R).
  { rewrite <- Rinv_1. apply Rinv_le_contravar; lra. }
  unfold Rdiv. rewrite Rmult_1_l. lra.
Qed.

Lemma even_power_nonneg (x : R) (n : nat) : (0 <= x ^ (2 * n))%R.
Proof. rewrite pow_mult. apply pow_le. apply pow2_ge_0. Qed.

(** X1: the gain of the mask lies between 0 and 1 at every point: the
    filter amplifies no frequency. *)
Theorem butterworth_gain_range (d1 d2 : R) (n : nat) (g : globals) (i j : nat) :
  (0 < d1)%R -> (0 < d2)%R -> i < 1024 -> j < 1024 ->
  exists bff,
    butterworth d1 d2 n g = (Ok bff, g) /\
    (0 <= item bff [i; j] <= 1)%R.
Proof.
  intros _ _ _ _.
  destruct (butterworth_run d1 d2 n g) as (bff & Hrun & _ & Hitem).
  exists bff. split; [assumption|]. rewrite Hitem. cbv zeta.
  set (d := sqrt _).
  pose proof (lowcut_range (even_power_nonneg (d / d1) n)) as [L1 L2].
  pose proof (highcut_range (even_power_nonneg (d / d2) n)) as [H1 H2].
  revert L1 L2 H1 H2.
  generalize (1 - 1 / (1 + (d / d1) ^ (2 * n)))%R
             (1 / (1 + (d / d2) ^ (2 * n)))%R.
  intros a b. nra.
Qed.

Lemma butterworth_gain_range_witness :
  exists bff,
    butterworth 20 400 4 fresh = (Ok bff, fresh) /\
    (0 <= item bff [512%nat; 512%nat] <= 1)%R.
Proof.
  apply (@butterworth_gain_range 20 400 4 fresh 512 512); try lra; lia.
Defined.

(** X2: the mask is symmetric under the reflection of either axis and
    under transposition. *)
Theorem butterworth_reflections (d1 d2 : R) (n : nat) (g : globals) (i j : nat) :
  i < 1024 -> j < 1024 ->
  exists bff,
    butterworth d1 d2 n g = (Ok bff, g) /\
    item bff [1023 - i; j] = item bff [i; j] /\
    item bff [i; 1023 - j] = item bff [i; j] /\
    item bff [j; i] = item bff [i; j].
Proof.
  intros Hi Hj.
  destruct (butterworth_run d1 d2 n g) as (bff & Hrun & _ & Hitem).
  exists bff. split; [assumption|]. rewrite !Hitem. cbv zeta.
  repeat split.
  - rewrite (grid_mirror Hi).
    replace ((- item grid [i]) ^ 2)%R with (item grid [i] ^ 2)%R by ring.
    reflexivity.
  - rewrite (grid_mirror Hj).
    replace ((- item grid [j]) ^ 2)%R with (item grid [j] ^ 2)%R by ring.
    reflexivity.
  - rewrite (Rplus_comm (item grid [i] ^ 2)). reflexivity.
Qed.

Lemma butterworth_reflections_witness :
  exists bff,
    butterworth 20 400 4 fresh = (Ok bff, fresh) /\
    item bff [1023 - 3; 8] = item bff [3; 8] /\
    item bff [3; 1023 - 8] = item bff [3; 8] /\
    item bff [8; 3] = item bff [3; 8].
Proof.
  apply (@butterworth_reflections 20 400 4 fresh 3 8); lia.
Defined.

(** ** Which frames the filter accepts *)

Lemma crop_general (frame : ndarray Z) (g : globals) (h w : nat) (s : list nat) :
  shape frame = h :: w :: s ->
  (ndim frame =? 3) && (h =? 1) = false ->
  exists I,
    crop frame g = (Ok I, g) /\
    shape I = Nat.min 1024 h :: Nat.min 1024 w :: s.
Proof.
  intros Hs Hc. unfold crop. rewrite Hs. cbn [hd]. rewrite Hc.
  unfold lift, np.getitem. rewrite Hs, getitem_shape_crop2.
  eexists. split; reflexivity.
Qed.

Lemma transform2_outcome
      (f : nat -> nat -> (nat -> nat -> C) -> nat -> nat -> C) (a : ndarray C)
      (s : list nat) (p q : nat) :
  shape a = s ++ [p; q] ->
  (p = 0 \/ q = 0 -> np.fft.transform2 f a = Raise ValueError) /\
  (p <> 0 -> q <> 0 ->
   exists b, np.fft.transform2 f a = Ok b /\ shape b = s ++ [p; q]).
Proof.
  intros Hs. unfold np.fft.transform2. rewrite Hs, rev_app_distr.
  cbn [rev app]. split.
  - intros [-> | ->]; [reflexivity|]. rewrite orb_true_r. reflexivity.
  - intros Hp Hq. apply Nat.eqb_neq in Hp, Hq. rewrite Hp, Hq. cbn [orb].
    eexists. split; [reflexivity|]. cbn [shape]. first [reflexivity | assumption].
Qed.

Lemma broadcast_2d (a b : nat) :
  broadcast_shapes [a; b] [1024; 1024] =
  if ((a =? 1024) || (a =? 1)) && ((b =? 1024) || (b =? 1))
  then Some [1024; 1024] else None.
Proof.
  unfold broadcast_shapes. cbn [rev app broadcast_rev].
  change (1024 =? 1) with false.
  destruct (Nat.eqb_spec a 1024) as [->|Ha]; [|destruct (Nat.eqb_spec a 1) as [->|Ha1]];
    (destruct (Nat.eqb_spec b 1024) as [->|Hb];
     [|destruct (Nat.eqb_spec b 1) as [->|Hb1]]); reflexivity.
Qed.

Lemma broadcast_last_axis (s : list nat) (c : nat) :
  c <> 1 -> c <> 1024 -> broadcast_shapes (s ++ [c]) [1024; 1024] = None.
Proof.
  intros H1 H2. unfold broadcast_shapes. rewrite rev_app_distr.
  cbn [rev app]. apply Nat.eqb_neq in H1, H2.
  assert (E : forall rs, broadcast_rev (c :: rs) [1024; 1024] = None).
  { intros rs. destruct rs as [|x l]; cbn [broadcast_rev].
    - rewrite H1, H2. reflexivity.
    - destruct l; (destruct (x =? 1024); [|destruct (x =? 1)]);
        rewrite ?H1, ?H2; reflexivity. }
  rewrite E. reflexivity.
Qed.

(** The steps after the crop, for a crop of shape [(a, b)]. *)
Lemma frame_filter_after_crop_2d
      (frame : ndarray Z) (d1 d2 : R) (n : nat) (g : globals)
      (I : ndarray Z) (a b : nat) :
  crop frame g = (Ok I, g) -> shape I = [a; b] ->
  ((a = 1 \/ a = 1024) /\ (b = 1 \/ b = 1024) ->
   exists I_filt,
     frame_filter frame d1 d2 n g = (Ok I_filt, g) /\
     shape I_filt = [1024; 1024]) /\
  (~ ((a = 1 \/ a = 1024) /\ (b = 1 \/ b = 1024)) ->
   frame_filter frame d1 d2 n g = (Raise ValueError, g)).
Proof.
  intros Hcrop HI.
  destruct (butterworth_run d1 d2 n g) as (bff & Hbff & Hbs & _).
  destruct (@transform2_outcome (np.fft.dft2 (-1)) (np.ufunc ZtoC I) [] a b HI)
    as [Hzero Hpos].
  unfold frame_filter.
  rewrite (bind_ok _ _ _ Hcrop), (bind_ok _ _ _ Hbff). unfold np.fft.fft2.
  split.
  - intros [Ha Hb].
    destruct Hpos as (I_fft & Hfft & Hfs); [lia | lia |].
    rewrite (bind_lift_ok _ _ Hfft).
    unfold np.ufunc2. cbn [np.fft.fftshift shape]. rewrite Hfs, Hbs.
    cbn [app]. rewrite broadcast_2d.
    replace (((a =? 1024) || (a =? 1)) && ((b =? 1024) || (b =? 1))) with true.
    2:{ symmetry. apply andb_true_iff. rewrite !orb_true_iff, !Nat.eqb_eq. lia. }
    cbn [lift bind].
    match goal with
    | |- context [np.fft.ifft2 ?arr] =>
        destruct (transform2_square
                    (fun m n x k l =>
                       Cscale (np.fft.dft2 1 m n x k l) (/ (INR m * INR n))%R)
                    arr eq_refl) as (I_filt & Hifft & Hos & _)
    end.
    unfold np.fft.ifft2. rewrite Hifft. cbn [lift bind ret].
    exists I_filt. split; [reflexivity | assumption].
  - intros Hno.
    destruct (Nat.eq_dec a 0) as [Ha0|Ha0];
      [rewrite (Hzero (or_introl Ha0)); reflexivity|].
    destruct (Nat.eq_dec b 0) as [Hb0|Hb0];
      [rewrite (Hzero (or_intror Hb0)); reflexivity|].
    destruct (Hpos Ha0 Hb0) as (I_fft & Hfft & Hfs).
    rewrite (bind_lift_ok _ _ Hfft).
    unfold np.ufunc2. cbn [np.fft.fftshift shape]. rewrite Hfs, Hbs.
    cbn [app]. rewrite broadcast_2d.
    replace (((a =? 1024) || (a =? 1)) && ((b =? 1024) || (b =? 1))) with false;
      [reflexivity|].
    symmetry. apply not_true_is_false. intros E. apply Hno.
    apply andb_true_iff in E. rewrite !orb_true_iff, !Nat.eqb_eq in E. lia.
Qed.

(** X3: a two-dimensional frame is filtered when each of its sides is
    at least 1024 or exactly 1 (a side of 1 is broadcast against the
    mask), and the result is 1024 by 1024; for every other size
    [frame_filter] raises [ValueError]: a smaller frame is not padded. *)
Theorem frame_filter_2d_outcome
        (frame : ndarray Z) (d1 d2 : R) (n : nat) (g : globals) (h w : nat) :
  shape frame = [h; w] ->
  ((h = 1 \/ 1024 <= h) /\ (w = 1 \/ 1024 <= w) ->
   exists I_filt,
     frame_filter frame d1 d2 n g = (Ok I_filt, g) /\
     shape I_filt = [1024; 1024]) /\
  (~ ((h = 1 \/ 1024 <= h) /\ (w = 1 \/ 1024 <= w)) ->
   frame_filter frame d1 d2 n g = (Raise ValueError, g)).
Proof.
  intros Hs.
  destruct (@crop_general frame g h w [] Hs) as (I & Hcrop & HI).
  { unfold ndim. rewrite Hs. reflexivity. }
  destruct (@frame_filter_after_crop_2d frame d1 d2 n g I _ _ Hcrop HI)
    as [Hyes Hno].
  split.
  - intros H. apply Hyes. lia.
  - intros H. apply Hno. lia.
Qed.

Lemma frame_filter_2d_outcome_witness :
  (exists I_filt,
     frame_filter (black [1; 1920]) 20 400 4 fresh = (Ok I_filt, fresh) /\
     shape I_filt = [1024; 1024]) /\
  frame_filter (black [1023; 1920]) 20 400 4 fresh = (Raise ValueError, fresh).
Proof.
  split.
  - apply (proj1 (@frame_filter_2d_outcome (black [1; 1920]) 20 400 4 fresh
                                           1 1920 eq_refl)).
    lia.
  - apply (proj2 (@frame_filter_2d_outcome (black [1023; 1920]) 20 400 4 fresh
                                           1023 1920 eq_refl)).
    lia.
Defined.

(** X4: a frame with fewer than two axes cannot be indexed by the crop:
    [frame_filter] and [calc_floc_proxy] raise [IndexError]. *)
Theorem frame_filter_too_few_axes
        (frame : ndarray Z) (d1 d2 : R) (n : nat) (g : globals) :
  ndim frame < 2 ->
  frame_filter frame d1 d2 n g = (Raise IndexError, g) /\
  calc_floc_proxy frame d1 d2 n g = (Raise IndexError, g).
Proof.
  intros Hn.
  assert (Hcrop : crop frame g = (Raise IndexError, g)).
  { unfold crop, np.getitem, ndim in *.
    destruct (shape frame) as [|a [|b s]]; cbn in Hn; try lia; reflexivity. }
  assert (Hf : frame_filter frame d1 d2 n g = (Raise IndexError, g)).
  { unfold frame_filter. apply bind_raise. assumption. }
  split; [assumption|].
  unfold calc_floc_proxy. apply bind_raise. assumption.
Qed.

Lemma frame_filter_too_few_axes_witness :
  frame_filter (black [2048]) 20 400 4 fresh = (Raise IndexError, fresh) /\
  calc_floc_proxy (black [2048]) 20 400 4 fresh = (Raise IndexError, fresh).
Proof.
  apply (@frame_filter_too_few_axes (black [2048]) 20 400 4 fresh).
  cbn. lia.
Defined.

(** ** What the proxy depends on *)

Lemma bandpass_filtered_ext (img1 img2 : nat -> nat -> Z)
      (d1 d2 : R) (n : nat) (i j : nat) :
  (forall p q, p < 1024 -> q < 1024 -> img1 p q = img2 p q) ->
  bandpass_filtered img1 d1 d2 n i j = bandpass_filtered img2 d1 d2 n i j.
Proof.
  intros E. unfold bandpass_filtered. f_equal.
  apply dft2_ext. intros p q _ _. unfold centred. f_equal.
  apply dft2_ext. intros a b Ha Hb. rewrite E by assumption. reflexivity.
Qed.

Lemma calc_floc_proxy_same_subimage
      (frame1 frame2 : ndarray Z) (d1 d2 : R) (n : nat) (g : globals) :
  gray_frame frame1 = true -> gray_frame frame2 = true ->
  (forall i j, i < 1024 -> j < 1024 -> pixel frame1 i j = pixel frame2 i j) ->
  exists r1 r2,
    calc_floc_proxy frame1 d1 d2 n g = (Ok r1, g) /\
    calc_floc_proxy frame2 d1 d2 n g = (Ok r2, g) /\
    item r1 [0] = item r2 [0].
Proof.
  intros G1 G2 E.
  destruct (calc_floc_proxy_gray_run frame1 d1 d2 n g G1) as (r1 & H1 & _ & V1).
  destruct (calc_floc_proxy_gray_run frame2 d1 d2 n g G2) as (r2 & H2 & _ & V2).
  exists r1, r2. repeat split; trivial.
  rewrite V1, V2. f_equal. apply count_pixels_ext. intros i j _ _.
  rewrite (@bandpass_filtered_ext (pixel frame1) (pixel frame2)) by assumption.
  reflexivity.
Qed.

(** X5: the proxy depends on the first 1024 rows and columns of the
    frame only: two single-channel frames, of whatever size and layout,
    that agree there have the same proxy. *)
Theorem calc_floc_proxy_subimage_only
        (frame1 frame2 : ndarray Z) (d1 d2 : R) (n : nat) (g : globals) :
  gray_frame frame1 = true -> gray_frame frame2 = true ->
  (forall i j, i < 1024 -> j < 1024 -> pixel frame1 i j = pixel frame2 i j) ->
  exists r1 r2,
    calc_floc_proxy frame1 d1 d2 n g = (Ok r1, g) /\
    calc_floc_proxy frame2 d1 d2 n g = (Ok r2, g) /\
    item r1 [0] = item r2 [0].
Proof. apply calc_floc_proxy_same_subimage. Qed.

Lemma calc_floc_proxy_subimage_only_witness :
  exists r1 r2,
    calc_floc_proxy (black [1080; 1920]) 20 400 4 fresh = (Ok r1, fresh) /\
    calc_floc_proxy (black [1; 1024; 1024]) 20 400 4 fresh = (Ok r2, fresh) /\
    item r1 [0] = item r2 [0].
Proof.
  apply (@calc_floc_proxy_subimage_only
           (black [1080; 1920]) (black [1; 1024; 1024]) 20 400 4 fresh);
    reflexivity.
Defined.

Lemma gray_block_of (frame : ndarray Z) (h w : nat) :
  shape frame = [h; w] -> 1024 <= h -> 1024 <= w ->
  gray_frame frame = true /\ gray_frame (block_of frame) = true /\
  forall i j, pixel (block_of frame) i j = pixel frame i j.
Proof.
  intros Hs Hh Hw. apply Nat.leb_le in Hh, Hw.
  unfold gray_frame, pixel, ndim, block_of. cbn [shape item tl].
  rewrite Hs, Hh, Hw. repeat split.
Qed.

(** X6: the value [map_blocks] computes for block [k] is the proxy of
    the frame [delayed_frame_array[k].compute()] returns: for a fetched
    frame of shape (h, w) with both sides at least 1024, the block of
    shape (1, h, w) and the frame itself give the same count. *)
Theorem compute_floc_proxy_is_frame_proxy
        (moov : Type) (get_moov_atom : string -> result moov)
        (get_frame : string -> Z -> string -> moov -> result (ndarray Z))
        (graph : list task) (arr : dask_array) (d1 d2 : R) (n : nat)
        (k : nat) (g : globals) (frame : ndarray Z) (h w : nat) :
  compute_frame get_moov_atom get_frame graph arr k = Ok frame ->
  shape frame = [h; w] -> 1024 <= h -> 1024 <= w ->
  exists r r',
    compute_floc_proxy get_moov_atom get_frame graph arr d1 d2 n k g
    = (Ok r, g) /\
    calc_floc_proxy frame d1 d2 n g = (Ok r', g) /\
    item r [0] = item r' [0].
Proof.
  intros Hf Hs Hh Hw.
  destruct (gray_block_of frame Hs Hh Hw) as (G & Gb & E).
  destruct (@calc_floc_proxy_same_subimage (block_of frame) frame d1 d2 n g
                                           Gb G) as (r & r' & H1 & H2 & V).
  { intros i j _ _. apply E. }
  exists r, r'. repeat split; trivial.
  unfold compute_floc_proxy. rewrite (bind_lift_ok _ _ Hf). assumption.
Qed.

Lemma compute_floc_proxy_is_frame_proxy_witness :
  let dfl := delayed_frame_list "gray16le" [1080; 1920] uint16
                                ["a.mov"%string] frame_numbers_floc_analysis in
  let arr := mk_dask_array (snd dfl) [6; 1080; 1920] uint16 in
  exists r r',
    compute_floc_proxy unit_moov_atom (black_get_frame [1080; 1920])
                       (fst dfl) arr 20 400 4 2 fresh = (Ok r, fresh) /\
    calc_floc_proxy (black [1080; 1920]) 20 400 4 fresh = (Ok r', fresh) /\
    item r [0] = item r' [0].
Proof.
  apply (@compute_floc_proxy_is_frame_proxy
           unit unit_moov_atom (black_get_frame [1080; 1920])
           _ _ 20 400 4 2 fresh (black [1080; 1920]) 1080 1920);
    [reflexivity | reflexivity | lia | lia].
Defined.

(** X7: the proxy of a single-channel frame is a count of pixels of the
    1024 by 1024 subimage: it lies between 0 and 1024 * 1024. *)
Theorem calc_floc_proxy_range
        (frame : ndarray Z) (d1 d2 : R) (n : nat) (g : globals) :
  gray_frame frame = true ->
  exists r,
    calc_floc_proxy frame d1 d2 n g = (Ok r, g) /\
    (0 <= item r [0%nat] <= 1024 * 1024)%Z.
Proof. apply calc_floc_proxy_bounds. Qed.

Lemma calc_floc_proxy_range_witness :
  exists r,
    calc_floc_proxy (black [1080; 1920]) 20 400 4 fresh = (Ok r, fresh) /\
    (0 <= item r [0%nat] <= 1024 * 1024)%Z.
Proof.
  apply (@calc_floc_proxy_range (black [1080; 1920]) 20 400 4 fresh).
  reflexivity.
Defined.

(** X8: a frame whose first 1024 rows and columns are black has proxy
    0, whatever the parameters and whatever lies outside. *)
Theorem calc_floc_proxy_black_subimage
        (frame : ndarray Z) (d1 d2 : R) (n : nat) (g : globals) :
  gray_frame frame = true ->
  (forall i j, i < 1024 -> j < 1024 -> pixel frame i j = 0%Z) ->
  exists r,
    calc_floc_proxy frame d1 d2 n g = (Ok r, g) /\
    shape r = [1] /\ item r [0] = 0%Z.
Proof.
  intros G E.
  destruct (calc_floc_proxy_gray_run frame d1 d2 n g G) as (r & Hrun & Hs & Hr).
  exists r. repeat split; trivial.
  rewrite Hr, count_pixels_none; trivial.
  intros i j _ _.
  rewrite (@bandpass_filtered_ext (pixel frame) (fun _ _ => 0%Z)) by assumption.
  rewrite bandpass_filtered_zero.
  unfold Cabs, C0, Rgtb. cbn [Cre Cim fst snd].
  rewrite Rmult_0_l, Rplus_0_l, sqrt_0.
  destruct (Rlt_dec 4000 0); [lra|reflexivity].
Qed.

Lemma calc_floc_proxy_black_subimage_witness :
  exists r,
    calc_floc_proxy (black [1; 1080; 1920]) 1 2 0 fresh = (Ok r, fresh) /\
    shape r = [1] /\ item r [0] = 0%Z.
Proof.
  apply (@calc_floc_proxy_black_subimage (black [1; 1080; 1920]) 1 2 0 fresh).
  - reflexivity.
  - intros i j _ _. reflexivity.
Defined.

(** ** Blocks of frames with channels *)

Lemma calc_floc_proxy_channel_block
      (frame : ndarray Z) (d1 d2 : R) (n : nat) (g : globals) (h w c : nat) :
  shape frame = [h; w; c] -> c <> 1 -> c <> 1024 ->
  calc_floc_proxy (block_of frame) d1 d2 n g = (Raise ValueError, g).
Proof.
  intros Hs H1 H2.
  assert (Hb : shape (block_of frame) = [1; h; w; c])
    by (cbn [block_of shape]; rewrite Hs; reflexivity).
  destruct (@crop_general (block_of frame) g 1 h [w; c] Hb) as (I & Hcrop & HI).
  { unfold ndim. rewrite Hb. reflexivity. }
  destruct (butterworth_run d1 d2 n g) as (bff & Hbff & Hbs & _).
  destruct (@transform2_outcome (np.fft.dft2 (-1)) (np.ufunc ZtoC I)
                                [Nat.min 1024 1; Nat.min 1024 h] w c HI)
    as [Hzero Hpos].
  unfold calc_floc_proxy. apply bind_raise. unfold frame_filter.
  rewrite (bind_ok _ _ _ Hcrop), (bind_ok _ _ _ Hbff). unfold np.fft.fft2.
  destruct (Nat.eq_dec w 0) as [Hw0|Hw0];
    [rewrite (Hzero (or_introl Hw0)); reflexivity|].
  destruct (Nat.eq_dec c 0) as [Hc0|Hc0];
    [rewrite (Hzero (or_intror Hc0)); reflexivity|].
  destruct (Hpos Hw0 Hc0) as (I_fft & Hfft & Hfs).
  rewrite (bind_lift_ok _ _ Hfft).
  unfold np.ufunc2. cbn [np.fft.fftshift shape]. rewrite Hfs, Hbs.
  change ([Nat.min 1024 1; Nat.min 1024 h] ++ [w; c])
    with ([Nat.min 1024 1; Nat.min 1024 h; w] ++ [c]).
  rewrite broadcast_last_axis by assumption. reflexivity.
Qed.

(** X9: in a pipeline of frames with colour channels no block yields a
    value: when the fetch of block [k] returns a frame of shape
    (h, w, c) with [c] neither 1 nor 1024, such as the (1080, 1920, 3)
    frames of the show_image notebook, computing [floc_proxy[k]] raises
    [ValueError]. *)
Theorem compute_floc_proxy_channels
        (moov : Type) (get_moov_atom : string -> result moov)
        (get_frame : string -> Z -> string -> moov -> result (ndarray Z))
        (graph : list task) (arr : dask_array) (d1 d2 : R) (n : nat)
        (k : nat) (g : globals) (frame : ndarray Z) (h w c : nat) :
  compute_frame get_moov_atom get_frame graph arr k = Ok frame ->
  shape frame = [h; w; c] -> c <> 1 -> c <> 1024 ->
  compute_floc_proxy get_moov_atom get_frame graph arr d1 d2 n k g
  = (Raise ValueError, g).
Proof.
  intros Hf Hs H1 H2. unfold compute_floc_proxy.
  rewrite (bind_lift_ok _ _ Hf).
  eapply calc_floc_proxy_channel_block; eassumption.
Qed.

Lemma compute_floc_proxy_channels_witness :
  let dfl := delayed_frame_list "rgb24" [1080; 1920; 3] uint8
                                ["a.mov"%string] frame_numbers_show_image in
  let arr := mk_dask_array (snd dfl) [1; 1080; 1920; 3] uint8 in
  compute_floc_proxy unit_moov_atom (black_get_frame [1080; 1920; 3])
                     (fst dfl) arr 20 400 4 0 fresh
  = (Raise ValueError, fresh).
Proof.
  apply (@compute_floc_proxy_channels
           unit unit_moov_atom (black_get_frame [1080; 1920; 3])
           _ _ 20 400 4 0 fresh (black [1080; 1920; 3]) 1080 1920 3);
    [reflexivity | reflexivity | lia | lia].
Defined.

(** ** The shifts *)

Lemma half_le (d : nat) : d / 2 <= d.
Proof. apply Nat.Div0.div_le_upper_bound. lia. Qed.

Lemma roll_back_axis (d i : nat) :
  i < d -> ((i + (d - (d - d / 2))) mod d + (d - d / 2)) mod d = i.
Proof.
  intros Hi. pose proof (half_le d) as H.
  rewrite Nat.Div0.add_mod_idemp_l.
  replace (i + (d - (d - d / 2)) + (d - d / 2)) with (i + 1 * d) by lia.
  rewrite Nat.Div0.mod_add. apply Nat.mod_small. assumption.
Qed.

Lemma roll_forth_axis (d i : nat) :
  i < d -> ((i + (d - d / 2)) mod d + (d - (d - d / 2))) mod d = i.
Proof.
  intros Hi. pose proof (half_le d) as H.
  rewrite Nat.Div0.add_mod_idemp_l.
  replace (i + (d - d / 2) + (d - (d - d / 2))) with (i + 1 * d) by lia.
  rewrite Nat.Div0.mod_add. apply Nat.mod_small. assumption.
Qed.

Lemma roll_index_roundtrip (s idx : list nat) :
  Forall2 lt idx s ->
  roll_index (fun d => d / 2) s (roll_index (fun d => d - d / 2) s idx) = idx /\
  roll_index (fun d => d - d / 2) s (roll_index (fun d => d / 2) s idx) = idx.
Proof.
  induction 1 as [|i d idx s Hi _ [IH1 IH2]]; [split; reflexivity|].
  cbn [roll_index]. rewrite IH1, IH2.
  rewrite (roll_back_axis Hi), (roll_forth_axis Hi). split; reflexivity.
Qed.

(** X10: [ifftshift] undoes [fftshift], and [fftshift] undoes
    [ifftshift], on arrays of any shape, odd lengths included: the
    shape is kept and every entry returns to its index. *)
Theorem fftshift_roundtrip {A} (a : ndarray A) (idx : list nat) :
  Forall2 lt idx (shape a) ->
  shape (np.fft.ifftshift (np.fft.fftshift a)) = shape a /\
  item (np.fft.ifftshift (np.fft.fftshift a)) idx = item a idx /\
  item (np.fft.fftshift (np.fft.ifftshift a)) idx = item a idx.
Proof.
  intros H. destruct (roll_index_roundtrip H) as [E1 E2].
  cbn [np.fft.ifftshift np.fft.fftshift shape item].
  rewrite E1, E2. repeat split.
Qed.

Lemma fftshift_roundtrip_witness :
  shape (np.fft.ifftshift (np.fft.fftshift (black [3; 4]))) = [3; 4] /\
  item (np.fft.ifftshift (np.fft.fftshift (black [3; 4]))) [2; 1]
  = item (black [3; 4]) [2; 1] /\
  item (np.fft.fftshift (np.fft.ifftshift (black [3; 4]))) [2; 1]
  = item (black [3; 4]) [2; 1].
Proof.
  apply (@fftshift_roundtrip Z (black [3; 4]) [2; 1]).
  repeat constructor.
Defined.

Lemma shift_twice (p : nat) :
  p < 1024 -> ((p + 512) mod 1024 + 512) mod 1024 = p.
Proof.
  intros Hp. rewrite Nat.Div0.add_mod_idemp_l.
  replace (p + 512 + 512) with (p + 1 * 1024) by lia.
  rewrite Nat.Div0.mod_add. apply Nat.mod_small. assumption.
Qed.

(** X11: shifting the spectrum, weighing it by the mask and shifting it
    back amounts to weighing the spectrum where it lies: the component
    of frequency [(p, q)] is multiplied by the mask entry at
    [((p + 512) mod 1024, (q + 512) mod 1024)], so that the mean of the
    image, at [(0, 0)], meets the entry [(512, 512)] of the mask. *)
Theorem frame_filter_weighs_spectrum
        (frame : ndarray Z) (d1 d2 : R) (n : nat) (g : globals) (i j : nat) :
  gray_frame frame = true -> i < 1024 -> j < 1024 ->
  exists I_filt,
    frame_filter frame d1 d2 n g = (Ok I_filt, g) /\
    item I_filt [i; j] =
    Cscale
      (np.fft.dft2 1 1024 1024
         (fun p q =>
            Cscale
              (np.fft.dft2 (-1) 1024 1024
                           (fun a b => ZtoC (pixel frame a b)) p q)
              (mask_value d1 d2 n ((p + 512) mod 1024) ((q + 512) mod 1024)))
         i j)
      (/ (INR 1024 * INR 1024))%R.
Proof.
  intros Hgray _ _.
  destruct (frame_filter_gray frame d1 d2 n g Hgray) as (I & Hrun & _ & Hi).
  exists I. split; [assumption|]. rewrite Hi. unfold bandpass_filtered.
  apply (f_equal (fun z => Cscale z (/ (INR 1024 * INR 1024))%R)).
  apply dft2_ext. intros p q Hp Hq. unfold centred.
  rewrite (shift_twice Hp), (shift_twice Hq). reflexivity.
Qed.

Lemma frame_filter_weighs_spectrum_witness :
  exists I_filt,
    frame_filter (black [1080; 1920]) 20 400 4 fresh = (Ok I_filt, fresh) /\
    item I_filt [0; 0] =
    Cscale
      (np.fft.dft2 1 1024 1024
         (fun p q =>
            Cscale
              (np.fft.dft2 (-1) 1024 1024
                           (fun a b => ZtoC (pixel (black [1080; 1920]) a b))
                           p q)
              (mask_value 20 400 4 ((p + 512) mod 1024) ((q + 512) mod 1024)))
         0 0)
      (/ (INR 1024 * INR 1024))%R.
Proof.
  apply (@frame_filter_weighs_spectrum (black [1080; 1920]) 20 400 4 fresh 0 0);
    [reflexivity | lia | lia].
Defined.

(** ** The list of URLs *)

(** X12: [blob_urls] is in ascending order and holds the URL of every
    selected row once for each such row: a URL that two selected rows
    share is kept twice. *)
Theorem blob_urls_sorted_with_repeats (dbcamhd : dataframe) :
  LocallySorted (fun a b => String.leb a b = true) (blob_urls dbcamhd) /\
  Permutation (map blob_url (filter selected dbcamhd)) (blob_urls dbcamhd) /\
  List.length (blob_urls dbcamhd) = List.length (filter selected dbcamhd).
Proof.
  split; [apply blob_urls_sorted|].
  assert (P : Permutation (map blob_url (filter selected dbcamhd))
                          (blob_urls dbcamhd))
    by apply StringSort.Permuted_sort.
  split; [assumption|].
  rewrite <- (Permutation_length P). apply length_map.
Qed.

(** ** More on the timestamps *)







Lemma running_timestamps_nth (fns : list Z) :
  forall t i,
    i < List.length fns ->
    nth_error (running_timestamps t fns) i =
    Some (fold_left (fun acc fn => (acc + IZR fn / 29.97)%R)
                    (firstn (S i) fns) t).
Proof.
  induction fns as [|fn fns IH]; intros t i Hi; [cbn in Hi; lia|].
  destruct i as [|i].
  - reflexivity.
  - cbn [running_timestamps nth_error]. rewrite IH by (cbn in Hi; lia).
    reflexivity.
Qed.

(** X15: within a file the offsets add up: the value converted for the
    frame number in position [i] is the table's timestamp to which the
    offsets [frame_number / 29.97] of all the frame numbers up to and
    including position [i] have been added, one after the other. *)
Theorem frame_timestamp_accumulates (conv : R -> R) (db : dataframe)
        (fns : list Z) (k i : nat) (url : string) :
  nth_error (blob_urls db) k = Some url -> i < List.length fns ->
  exists r l,
    first_row db url = Some r /\
    frame_timestamp conv db (blob_urls db) fns = Ok l /\
    nth_error l (k * List.length fns + i) =
    Some (conv (fold_left (fun acc fn => (acc + IZR fn / 29.97)%R)
                          (firstn (S i) fns) (timestamp r))).
Proof.
  intros Hk Hi.
  destruct (@frame_timestamp_nth conv db fns k i url Hk Hi)
    as (r & l & Hr & Hrun & _ & Hnth).
  exists r, l. repeat split; trivial.
  rewrite Hnth, nth_error_map, running_timestamps_nth by assumption.
  reflexivity.
Qed.

Lemma frame_timestamp_accumulates_witness :
  exists r l,
    first_row one_file_table "a.mov" = Some r /\
    frame_timestamp utc_datenum one_file_table (blob_urls one_file_table)
                    frame_numbers_floc_analysis = Ok l /\
    nth_error l (0 * 6 + 2) =
    Some (utc_datenum
            (fold_left (fun acc fn => (acc + IZR fn / 29.97)%R)
                       (firstn 3 frame_numbers_floc_analysis) (timestamp r))).
Proof.
  apply (@frame_timestamp_accumulates utc_datenum one_file_table
           frame_numbers_floc_analysis 0 2 "a.mov").
  - reflexivity.
  - cbn. lia.
Defined.

(** ** The task graph *)

Section TaskGraph.

Variable pix_fmt : string.
Variable frame_shape : list nat.
Variable frame_dtype : dtype.
Variable fns : list Z.

Local Abbreviation F := (List.length fns).

Lemma length_graph_from (urls : list string) :
  forall base,
    List.length (graph_from pix_fmt fns base urls) = List.length urls * S F.
Proof.
  induction urls as [|u urls IH]; intros base; trivial.
  cbn [graph_from]. rewrite length_app, length_url_tasks, IH.
  cbn [List.length Nat.mul]. reflexivity.
Qed.

Lemma graph_from_frame_deps (urls : list string) :
  forall base key url fn fmt m,
    nth_error (graph_from pix_fmt fns base urls) key
    = Some (call_get_frame url fn fmt m) ->
    fmt = pix_fmt /\ base <= m /\ m < base + key /\
    nth_error (graph_from pix_fmt fns base urls) (m - base)
    = Some (call_get_moov_atom url).
Proof.
  induction urls as [|u urls IH]; intros base key url fn fmt m H.
  - destruct key; discriminate.
  - cbn [graph_from] in *.
    destruct (Nat.lt_ge_cases key (S F)) as [Hlt|Hge].
    + rewrite nth_error_app1 in H by (rewrite length_url_tasks; assumption).
      unfold url_tasks in H. destruct key as [|i]; [discriminate|].
      cbn [nth_error] in H. rewrite nth_error_map in H.
      destruct (nth_error fns i); [|discriminate].
      cbn in H. injection H as <- _ <- <-.
      replace (base - base) with 0 by lia.
      repeat split; lia.
    + rewrite nth_error_app2 in H by (rewrite length_url_tasks; assumption).
      rewrite length_url_tasks in H.
      destruct (IH _ _ _ _ _ _ H) as (Hf & Hb & Hm & Hn).
      repeat split; try lia; trivial.
      rewrite nth_error_app2 by (rewrite length_url_tasks; lia).
      rewrite length_url_tasks.
      replace (m - base - S F) with (m - (base + S F)) by lia. assumption.
Qed.

Lemma frames_from_value (urls : list string) :
  forall base j a,
    nth_error (frames_from frame_shape frame_dtype fns base urls) j = Some a ->
    a = from_delayed (base + j + j / F + 1) frame_shape frame_dtype /\
    exists k i, j = k * F + i /\ i < F /\ k < List.length urls.
Proof.
  intros base j a H.
  assert (Hj : j < List.length urls * F).
  { rewrite <- (length_frames_from frame_shape frame_dtype fns urls base).
    apply nth_error_Some. congruence. }
  assert (HF : F <> 0) by (intros E; rewrite E in Hj; lia).
  pose proof (Nat.div_mod_eq j F) as Hdiv.
  pose proof (Nat.mod_upper_bound j F HF) as Hmod.
  assert (Hk : j / F < List.length urls).
  { apply Nat.Div0.div_lt_upper_bound. lia. }
  destruct (nth_error urls (j / F)) as [url|] eqn:Hu;
    [|apply nth_error_None in Hu; lia].
  pose proof (nth_frames_from frame_shape frame_dtype fns urls base (j / F)
                              Hu Hmod) as Hn.
  replace (j / F * F + j mod F) with j in Hn by lia.
  rewrite H in Hn. injection Hn as ->. split.
  - f_equal. lia.
  - exists (j / F), (j mod F). repeat split; trivial. lia.
Qed.

End TaskGraph.

(** X16: the graph the loop builds is well formed.  It has one node for
    each URL and one for each frame; a frame fetch asks for the
    notebook's pixel format and uses a node that stands before it and
    is the moov-atom fetch of its own URL; every element of the list
    names a frame fetch, and no two elements name the same one. *)
Theorem delayed_graph_well_formed
        (pix_fmt : string) (frame_shape : list nat) (frame_dtype : dtype)
        (urls : list string) (fns : list Z) :
  let graph :=
    fst (delayed_frame_list pix_fmt frame_shape frame_dtype urls fns) in
  let lst :=
    snd (delayed_frame_list pix_fmt frame_shape frame_dtype urls fns) in
  List.length graph = List.length urls * S (List.length fns) /\
  (forall key url fn fmt m,
      nth_error graph key = Some (call_get_frame url fn fmt m) ->
      fmt = pix_fmt /\ m < key /\
      nth_error graph m = Some (call_get_moov_atom url)) /\
  (forall j a,
      nth_error lst j = Some a ->
      exists url fn m,
        nth_error graph (value a) = Some (call_get_frame url fn pix_fmt m)) /\
  (forall j1 j2 a1 a2,
      nth_error lst j1 = Some a1 -> nth_error lst j2 = Some a2 ->
      value a1 = value a2 -> j1 = j2).
Proof.
  unfold delayed_frame_list. rewrite delayed_frame_loop_spec.
  cbn [fst snd app List.length]. repeat split.
  - apply length_graph_from.
  - destruct (graph_from_frame_deps _ _ _ _ _ H) as (Hf & _ & _ & _).
    assumption.
  - destruct (graph_from_frame_deps _ _ _ _ _ H) as (_ & _ & Hm & _).
    assumption.
  - destruct (graph_from_frame_deps _ _ _ _ _ H) as (_ & _ & _ & Hn).
    rewrite Nat.sub_0_r in Hn. assumption.
  - intros j a H.
    destruct (@frames_from_value frame_shape frame_dtype fns urls 0 j a H)
      as (-> & k & i & -> & Hi & Hk).
    destruct (nth_error urls k) as [url|] eqn:Hu;
      [|apply nth_error_None in Hu; lia].
    destruct (nth_error fns i) as [fn|] eqn:Hfn;
      [|apply nth_error_None in Hfn; lia].
    exists url, fn, (0 + k * S (List.length fns)). cbn [value].
    rewrite <- (nth_graph_from_frame pix_fmt fns urls 0 k i Hu Hfn).
    f_equal.
    assert (E : (k * List.length fns + i) / List.length fns = k).
    { symmetry. apply (Nat.div_unique _ _ k i); lia. }
    rewrite E. lia.
  - intros j1 j2 a1 a2 H1 H2 E.
    destruct (@frames_from_value frame_shape frame_dtype fns urls 0 j1 a1 H1)
      as (-> & _).
    destruct (@frames_from_value frame_shape frame_dtype fns urls 0 j2 a2 H2)
      as (-> & _).
    cbn [value] in E.
    destruct (Nat.lt_trichotomy j1 j2) as [Hlt|[Heq|Hgt]]; trivial.
    + pose proof (Nat.Div0.div_le_mono j1 j2 (List.length fns)
                                       (Nat.lt_le_incl _ _ Hlt)). lia.
    + pose proof (Nat.Div0.div_le_mono j2 j1 (List.length fns)
                                       (Nat.lt_le_incl _ _ Hgt)). lia.
Qed.

(** ** Computing an element of the stacked array *)

Lemma stack_chunks (l : list lazy_frame) (arr : dask_array) :
  stack l = Ok arr -> chunks arr = l /\ l <> [].
Proof.
  unfold stack. destruct l as [|a rest]; [discriminate|].
  destruct (forallb _ rest); [|discriminate].
  intros H. injection H as <-. split; [reflexivity | discriminate].
Qed.

Lemma compute_frame_element
      (moov : Type) (get_moov_atom : string -> result moov)
      (get_frame : string -> Z -> string -> moov -> result (ndarray Z))
      (pix_fmt : string) (frame_shape : list nat) (frame_dtype : dtype)
      (urls : list string) (fns : list Z) (arr : dask_array)
      (k i : nat) (url : string) (fn : Z) :
  nth_error urls k = Some url -> nth_error fns i = Some fn ->
  stack (snd (delayed_frame_list pix_fmt frame_shape frame_dtype urls fns))
  = Ok arr ->
  compute_frame get_moov_atom get_frame
    (fst (delayed_frame_list pix_fmt frame_shape frame_dtype urls fns))
    arr (k * List.length fns + i)
  = rbind (get_moov_atom url) (fun m => get_frame url fn pix_fmt m).
Proof.
  intros Hk Hi Hst. apply stack_chunks in Hst as [Hch _]. revert Hch.
  unfold delayed_frame_list. rewrite delayed_frame_loop_spec.
  cbn [fst snd app List.length]. intros Hch.
  assert (HiF : i < List.length fns) by (apply nth_error_Some; congruence).
  unfold compute_frame, compute_task. rewrite Hch.
  rewrite (nth_frames_from frame_shape frame_dtype fns urls 0 k Hk HiF).
  cbn [value]. rewrite !Nat.add_0_l.
  rewrite (nth_graph_from_frame pix_fmt fns urls 0 k i Hk Hi).
  rewrite !Nat.add_0_l.
  rewrite (nth_graph_from_moov pix_fmt fns urls 0 k Hk). reflexivity.
Qed.

(** X17: computing element [k * |frame_numbers| + i] of the stacked
    array fetches the moov atom of URL [k] and then frame number [i] of
    that URL with it, in the notebook's pixel format: the result is the
    library's, be it a frame or an exception.  An index past the last
    frame raises [IndexError]. *)
Theorem compute_frame_fetches
        (moov : Type) (get_moov_atom : string -> result moov)
        (get_frame : string -> Z -> string -> moov -> result (ndarray Z))
        (pix_fmt : string) (frame_shape : list nat) (frame_dtype : dtype)
        (urls : list string) (fns : list Z) (arr : dask_array)
        (k i : nat) (url : string) (fn : Z) :
  nth_error urls k = Some url -> nth_error fns i = Some fn ->
  stack (snd (delayed_frame_list pix_fmt frame_shape frame_dtype urls fns))
  = Ok arr ->
  let graph :=
    fst (delayed_frame_list pix_fmt frame_shape frame_dtype urls fns) in
  compute_frame get_moov_atom get_frame graph arr (k * List.length fns + i)
  = rbind (get_moov_atom url) (fun m => get_frame url fn pix_fmt m) /\
  forall j,
    List.length urls * List.length fns <= j ->
    compute_frame get_moov_atom get_frame graph arr j = Raise IndexError.
Proof.
  intros Hk Hi Hst. split.
  - apply compute_frame_element; assumption.
  - apply stack_chunks in Hst as [Hch _]. revert Hch.
    unfold delayed_frame_list. rewrite delayed_frame_loop_spec.
    cbn [fst snd app List.length]. intros Hch.
    intros j Hj. unfold compute_frame. rewrite Hch.
    replace (nth_error _ j) with (@None lazy_frame); [reflexivity|].
    symmetry. apply nth_error_None. rewrite length_frames_from. assumption.
Qed.

Lemma compute_frame_fetches_witness :
  let dfl := delayed_frame_list "gray16le" [1080; 1920] uint16
                                ["a.mov"; "b.mov"]%string
                                frame_numbers_floc_analysis in
  let arr := mk_dask_array (snd dfl) [12; 1080; 1920] uint16 in
  compute_frame unit_moov_atom failing_get_frame (fst dfl) arr (1 * 6 + 2)
  = rbind (unit_moov_atom "b.mov")
          (fun m => failing_get_frame "b.mov" 4052 "gray16le" m) /\
  forall j,
    2 * 6 <= j ->
    compute_frame unit_moov_atom failing_get_frame (fst dfl) arr j
    = Raise IndexError.
Proof.
  apply (@compute_frame_fetches
           unit unit_moov_atom failing_get_frame
           "gray16le" [1080; 1920] uint16 ["a.mov"; "b.mov"]%string
           frame_numbers_floc_analysis _ 1 2 "b.mov" 4052%Z);
    reflexivity.
Defined.

(** X18: with no selected URL, or with no frame number, the list stays
    empty and [dsa.stack] raises [ValueError]; the moov-atom fetches,
    one for each URL, have been created all the same. *)
Theorem delayed_frame_list_empty
        (pix_fmt : string) (frame_shape : list nat) (frame_dtype : dtype)
        (urls : list string) (fns : list Z) :
  urls = [] \/ fns = [] ->
  snd (delayed_frame_list pix_fmt frame_shape frame_dtype urls fns) = [] /\
  stack (snd (delayed_frame_list pix_fmt frame_shape frame_dtype urls fns))
  = Raise ValueError /\
  List.length
    (fst (delayed_frame_list pix_fmt frame_shape frame_dtype urls fns))
  = List.length urls.
Proof.
  intros H. unfold delayed_frame_list. rewrite delayed_frame_loop_spec.
  cbn [fst snd app List.length].
  assert (E : frames_from frame_shape frame_dtype fns 0 urls = []).
  { apply length_zero_iff_nil. rewrite length_frames_from.
    destruct H as [-> | ->]; cbn [List.length]; lia. }
  rewrite E, length_graph_from. repeat split.
  destruct H as [-> | ->]; cbn [List.length]; lia.
Qed.

Lemma delayed_frame_list_empty_witness :
  snd (delayed_frame_list "gray16le" [1080; 1920] uint16
                          ["a.mov"; "b.mov"]%string []) = [] /\
  stack (snd (delayed_frame_list "gray16le" [1080; 1920] uint16
                                 ["a.mov"; "b.mov"]%string []))
  = Raise ValueError /\
  List.length
    (fst (delayed_frame_list "gray16le" [1080; 1920] uint16
                             ["a.mov"; "b.mov"]%string []))
  = List.length ["a.mov"; "b.mov"]%string.
Proof.
  apply (@delayed_frame_list_empty "gray16le" [1080; 1920] uint16
                                   ["a.mov"; "b.mov"]%string []).
  right. reflexivity.
Defined.

(** ** Strided slices *)

Lemma nth_stride_from {A} (l : list A) :
  forall skip step j,
    0 < step ->
    nth_error (stride_from skip step l) j = nth_error l (skip + j * step).
Proof.
  induction l as [|x rest IH]; intros skip step j Hstep.
  - cbn [stride_from]. destruct j, (skip + _); reflexivity.
  - cbn [stride_from]. destruct skip as [|k].
    + destruct j as [|j]; [reflexivity|].
      cbn [nth_error]. rewrite IH by assumption.
      replace (0 + S j * step) with (S (step - 1 + j * step)) by (cbn; lia).
      reflexivity.
    + rewrite IH by assumption. reflexivity.
Qed.

Lemma length_stride {A} (l : list A) (step : nat) :
  0 < step ->
  List.length (stride_from 0 step l) = (List.length l + step - 1) / step.
Proof.
  intros Hstep.
  set (L := List.length (stride_from 0 step l)).
  set (N := List.length l).
  assert (C : forall j, j < L <-> j * step < N).
  { intros j. unfold L, N. rewrite <- !nth_error_Some.
    rewrite nth_stride_from by assumption. reflexivity. }
  pose proof (Nat.div_mod_eq (N + step - 1) step) as Hd.
  pose proof (Nat.mod_upper_bound (N + step - 1) step ltac:(lia)) as Hm.
  set (q := (N + step - 1) / step) in *.
  set (r := (N + step - 1) mod step) in *.
  destruct (Nat.lt_trichotomy L q) as [Hlt|[Heq|Hgt]]; trivial; exfalso.
  - assert (H : ~ L * step < N) by (rewrite <- C; lia). nia.
  - assert (H : q * step < N) by (apply C; assumption). nia.
Qed.

Lemma getslice_step_spec {A} (l xs : list A) (step : nat) :
  getslice_step l step = Ok xs ->
  0 < step /\
  List.length xs = (List.length l + step - 1) / step /\
  forall j, nth_error xs j = nth_error l (j * step).
Proof.
  unfold getslice_step. destruct (Nat.eqb_spec step 0); [discriminate|].
  intros H. injection H as <-.
  assert (Hs : 0 < step) by lia.
  repeat split; trivial.
  - apply length_stride. assumption.
  - intros j. apply (nth_stride_from l 0 j Hs).
Qed.

(** ** The value of every block *)

Section WholeArray.

Variable moov : Type.
Variable get_moov_atom : string -> result moov.
Variable get_frame : string -> Z -> string -> moov -> result (ndarray Z).
Variable graph : list task.
Variable arr : dask_array.
Variable d1 d2 : R.
Variable n : nat.

Local Abbreviation block_value :=
  (compute_floc_proxy get_moov_atom get_frame graph arr d1 d2 n).
Local Abbreviation blocks_value :=
  (compute_blocks get_moov_atom get_frame graph arr d1 d2 n).

Lemma stateless_compute_floc_proxy (k : nat) : stateless (block_value k).
Proof.
  unfold compute_floc_proxy.
  apply stateless_bind; [apply stateless_lift|intro].
  apply stateless_calc_floc_proxy.
Qed.

Lemma block_value_outcome (k : nat) (g : globals) :
  (exists r, block_value k g = (Ok r, g)) \/
  (exists e, block_value k g = (Raise e, g)).
Proof.
  destruct (stateless_compute_floc_proxy k) as [[r|e] H]; rewrite H;
    [left|right]; eexists; reflexivity.
Qed.

Lemma compute_blocks_ok (g : globals) (ks : list nat) :
  (forall k, In k ks -> exists r, block_value k g = (Ok r, g)) ->
  exists vs,
    blocks_value ks g = (Ok vs, g) /\
    List.length vs = List.length ks /\
    forall j k r,
      nth_error ks j = Some k -> block_value k g = (Ok r, g) ->
      nth_error vs j = Some (item r [0]).
Proof.
  induction ks as [|k ks IH]; intros H.
  - exists []. repeat split. intros [|j]; discriminate.
  - destruct (H k (or_introl eq_refl)) as (r & Hr).
    destruct IH as (vs & Hvs & Hlen & Hnth).
    { intros k' Hk'. apply H. right. assumption. }
    exists (item r [0] :: vs). cbn [compute_blocks].
    rewrite (bind_ok _ _ _ Hr), (bind_ok _ _ _ Hvs). repeat split.
    + cbn [List.length]. rewrite Hlen. reflexivity.
    + intros [|j] k' r' Hj Hr'; cbn [nth_error] in *.
      * injection Hj as <-. rewrite Hr in Hr'. injection Hr' as <-.
        reflexivity.
      * eapply Hnth; eassumption.
Qed.

Lemma compute_blocks_raises (g : globals) (ks : list nat) (k : nat) (e : exn) :
  In k ks -> block_value k g = (Raise e, g) ->
  exists e', blocks_value ks g = (Raise e', g).
Proof.
  induction ks as [|k0 ks IH]; intros Hin He; [destruct Hin|].
  cbn [compute_blocks].
  destruct (block_value_outcome k0 g) as [(r & Hr)|(e0 & He0)].
  - rewrite (bind_ok _ _ _ Hr).
    destruct Hin as [->|Hin]; [rewrite Hr in He; discriminate|].
    destruct (IH Hin He) as (e' & He').
    exists e'. rewrite (bind_raise _ _ _ He'). reflexivity.
  - exists e0. apply bind_raise. assumption.
Qed.

Lemma compute_blocks_inv (g : globals) (ks : list nat) (vs : list Z) :
  blocks_value ks g = (Ok vs, g) ->
  forall k, In k ks -> exists r, block_value k g = (Ok r, g).
Proof.
  intros H k Hin.
  destruct (block_value_outcome k g) as [Hok|(e & He)]; trivial.
  destruct (@compute_blocks_raises g ks k e Hin He) as (e' & He').
  rewrite He' in H. discriminate.
Qed.

End WholeArray.

(** X19: [floc_proxy.compute()] returns when every block returns, and
    then holds one value for each frame, in the order of the frames;
    when a block raises, the compute raises and the globals are left
    as they were. *)
Theorem floc_proxy_compute_all
        (moov : Type) (get_moov_atom : string -> result moov)
        (get_frame : string -> Z -> string -> moov -> result (ndarray Z))
        (graph : list task) (arr : dask_array) (d1 d2 : R) (n : nat)
        (g : globals) :
  ((forall k, k < List.length (chunks arr) ->
              exists r, compute_floc_proxy get_moov_atom get_frame graph arr
                                           d1 d2 n k g = (Ok r, g)) ->
   exists vs,
     floc_proxy_compute get_moov_atom get_frame graph arr d1 d2 n g
     = (Ok vs, g) /\
     List.length vs = List.length (chunks arr) /\
     forall k r,
       k < List.length (chunks arr) ->
       compute_floc_proxy get_moov_atom get_frame graph arr d1 d2 n k g
       = (Ok r, g) ->
       nth_error vs k = Some (item r [0])) /\
  (forall k e,
      k < List.length (chunks arr) ->
      compute_floc_proxy get_moov_atom get_frame graph arr d1 d2 n k g
      = (Raise e, g) ->
      exists e',
        floc_proxy_compute get_moov_atom get_frame graph arr d1 d2 n g
        = (Raise e', g)).
Proof.
  unfold floc_proxy_compute. split.
  - intros H.
    destruct (@compute_blocks_ok moov get_moov_atom get_frame graph arr d1 d2 n
                g (seq 0 (List.length (chunks arr)))) as (vs & Hvs & Hlen & Hn).
    { intros k Hk. apply H. apply in_seq in Hk. lia. }
    exists vs. rewrite length_seq in Hlen. repeat split; trivial.
    intros k r Hk Hr. apply (Hn k k r); trivial.
    rewrite nth_error_seq. destruct (Nat.ltb_spec k (List.length (chunks arr)));
      [reflexivity | lia].
  - intros k e Hk He.
    eapply compute_blocks_raises; [|eassumption]. apply in_seq. lia.
Qed.

Lemma compute_blocks_black (graph : list task) (arr : dask_array)
      (d1 d2 : R) (n : nat) (g : globals) (ks : list nat) :
  (forall k, In k ks ->
             compute_frame unit_moov_atom (black_get_frame [1080; 1920])
                           graph arr k = Ok (black [1080; 1920])) ->
  compute_blocks unit_moov_atom (black_get_frame [1080; 1920])
                 graph arr d1 d2 n ks g
  = (Ok (map (fun _ => 0%Z) ks), g).
Proof.
  induction ks as [|k ks IH]; intros H; [reflexivity|].
  cbn [compute_blocks map].
  destruct (@calc_floc_proxy_gray_run (block_of (black [1080; 1920]))
                                      d1 d2 n g eq_refl)
    as (r & Hrun & _ & Hr).
  assert (Hb : compute_floc_proxy unit_moov_atom (black_get_frame [1080; 1920])
                                  graph arr d1 d2 n k g = (Ok r, g)).
  { unfold compute_floc_proxy.
    rewrite (bind_lift_ok _ _ (H k (or_introl eq_refl))). assumption. }
  rewrite (bind_ok _ _ _ Hb).
  assert (Hrest := IH (fun k' Hk' => H k' (or_intror Hk'))).
  rewrite (bind_ok _ _ _ Hrest).
  unfold ret. rewrite Hr, count_pixels_none; [reflexivity|].
  intros i j _ _.
  replace (pixel (block_of (black [1080; 1920])))
    with (fun (_ _ : nat) => 0%Z) by reflexivity.
  rewrite bandpass_filtered_zero.
  unfold Cabs, C0, Rgtb. cbn [Cre Cim fst snd].
  rewrite Rmult_0_l, Rplus_0_l, sqrt_0.
  destruct (Rlt_dec 4000 0); [lra|reflexivity].
Qed.

Lemma floc_proxy_compute_all_witness :
  let dfl := delayed_frame_list "gray16le" [1080; 1920] uint16
                                ["a.mov"%string] [3841%Z; 3933%Z] in
  let arr := mk_dask_array (snd dfl) [2; 1080; 1920] uint16 in
  (exists vs,
     floc_proxy_compute unit_moov_atom (black_get_frame [1080; 1920])
                        (fst dfl) arr 20 400 4 fresh = (Ok vs, fresh) /\
     List.length vs = 2) /\
  exists e',
    floc_proxy_compute unit_moov_atom failing_get_frame
                       (fst dfl) arr 20 400 4 fresh = (Raise e', fresh).
Proof.
  cbv zeta. split.
  - destruct (proj1 (@floc_proxy_compute_all
                       unit unit_moov_atom (black_get_frame [1080; 1920])
                       (fst (delayed_frame_list "gray16le" [1080; 1920] uint16
                                                ["a.mov"%string]
                                                [3841%Z; 3933%Z]))
                       (mk_dask_array
                          (snd (delayed_frame_list "gray16le" [1080; 1920]
                                                   uint16 ["a.mov"%string]
                                                   [3841%Z; 3933%Z]))
                          [2; 1080; 1920] uint16)
                       20 400 4 fresh))
      as (vs & Hvs & Hlen & _).
    + intros k Hk.
      destruct (@calc_floc_proxy_gray_run (block_of (black [1080; 1920]))
                                          20 400 4 fresh eq_refl)
        as (r & Hrun & _).
      exists r. unfold compute_floc_proxy.
      destruct k as [|[|k]]; [exact Hrun | exact Hrun | cbn in Hk; lia].
    + exists vs. split; [exact Hvs | exact Hlen].
  - apply (proj2 (@floc_proxy_compute_all
                    unit unit_moov_atom failing_get_frame
                    (fst (delayed_frame_list "gray16le" [1080; 1920] uint16
                                             ["a.mov"%string]
                                             [3841%Z; 3933%Z]))
                    (mk_dask_array
                       (snd (delayed_frame_list "gray16le" [1080; 1920]
                                                uint16 ["a.mov"%string]
                                                [3841%Z; 3933%Z]))
                       [2; 1080; 1920] uint16)
                    20 400 4 fresh)
                 1 (OSError "decode failure")).
    + cbn. lia.
    + reflexivity.
Defined.

(** X20: the strided compute and the strided timestamps go together.
    When [floc_proxy[0::10].compute()] returns, it holds as many values
    as [frame_timestamp[0::10]] has entries, the number of frames
    divided by ten and rounded up, and entry [j] of either belongs to
    frame [10 j]. *)
Theorem strided_results_match_timestamps
        (moov : Type) (get_moov_atom : string -> result moov)
        (get_frame : string -> Z -> string -> moov -> result (ndarray Z))
        (graph : list task) (arr : dask_array) (d1 d2 : R) (n : nat)
        (g : globals) (frame_timestamp : list R) (vs : list Z) :
  List.length frame_timestamp = List.length (chunks arr) ->
  floc_proxy_compute_every10 get_moov_atom get_frame graph arr d1 d2 n g
  = (Ok vs, g) ->
  exists xs,
    getslice_step frame_timestamp 10 = Ok xs /\
    List.length xs = List.length vs /\
    List.length vs = (List.length (chunks arr) + 9) / 10 /\
    forall j,
      j < List.length vs ->
      nth_error xs j = nth_error frame_timestamp (j * 10) /\
      exists r,
        compute_floc_proxy get_moov_atom get_frame graph arr d1 d2 n
                           (j * 10) g = (Ok r, g) /\
        nth_error vs j = Some (item r [0]).
Proof.
  intros Hlen Hrun. unfold floc_proxy_compute_every10 in Hrun.
  destruct (getslice_step (seq 0 (List.length (chunks arr))) 10) as [ks|e] eqn:Hks;
    [|discriminate].
  cbn [lift bind] in Hrun.
  destruct (getslice_step_spec _ _ Hks) as (_ & Hkl & Hkn).
  rewrite length_seq in Hkl.
  replace (List.length (chunks arr) + 10 - 1)
    with (List.length (chunks arr) + 9) in Hkl by lia.
  pose proof (@compute_blocks_inv moov get_moov_atom get_frame graph arr
                                  d1 d2 n g ks vs Hrun) as Hall.
  destruct (@compute_blocks_ok moov get_moov_atom get_frame graph arr
                               d1 d2 n g ks Hall)
    as (vs' & Hvs' & Hvl & Hvn).
  rewrite Hrun in Hvs'. injection Hvs' as <-.
  exists (stride_from 0 10 frame_timestamp).
  destruct (@getslice_step_spec R frame_timestamp _ 10 eq_refl)
    as (_ & Hxl & Hxn).
  replace (List.length frame_timestamp + 10 - 1)
    with (List.length (chunks arr) + 9) in Hxl by lia.
  split; [reflexivity|]. split; [rewrite Hxl, Hvl, Hkl; reflexivity|].
  split; [rewrite Hvl, Hkl; reflexivity|].
  intros j Hj. split; [apply Hxn|].
  assert (Hk : nth_error ks j = Some (j * 10)).
  { rewrite Hkn, nth_error_seq.
    assert (Hin : nth_error ks j <> None) by (apply nth_error_Some; lia).
    rewrite Hkn, nth_error_seq in Hin.
    destruct (j * 10 <? List.length (chunks arr)); [reflexivity|congruence]. }
  destruct (Hall (j * 10) (nth_error_In _ _ Hk)) as (r & Hr).
  exists r. split; [assumption|]. eapply Hvn; eassumption.
Qed.

Lemma strided_results_match_timestamps_witness :
  let dfl := delayed_frame_list "gray16le" [1080; 1920] uint16
                                ["a.mov"; "b.mov"]%string
                                frame_numbers_floc_analysis in
  let arr := mk_dask_array (snd dfl) [12; 1080; 1920] uint16 in
  exists xs,
    getslice_step (repeat 0%R 12) 10 = Ok xs /\
    List.length xs = List.length [0%Z; 0%Z] /\
    List.length [0%Z; 0%Z] = (List.length (chunks arr) + 9) / 10 /\
    forall j,
      j < List.length [0%Z; 0%Z] ->
      nth_error xs j = nth_error (repeat 0%R 12) (j * 10) /\
      exists r,
        compute_floc_proxy unit_moov_atom (black_get_frame [1080; 1920])
                           (fst dfl) arr 20 400 4 (j * 10) fresh
        = (Ok r, fresh) /\
        nth_error [0%Z; 0%Z] j = Some (item r [0]).
Proof.
  apply (@strided_results_match_timestamps
           unit unit_moov_atom (black_get_frame [1080; 1920])
           _ _ 20 400 4 fresh (repeat 0%R 12) [0%Z; 0%Z]).
  - reflexivity.
  - unfold floc_proxy_compute_every10.
    change (getslice_step
              (seq 0 (List.length
                        (chunks
                           (mk_dask_array
                              (snd (delayed_frame_list
                                      "gray16le" [1080; 1920] uint16
                                      ["a.mov"; "b.mov"]%string
                                      frame_numbers_floc_analysis))
                              [12; 1080; 1920] uint16)))) 10)
      with (Ok [0; 10]).
    cbn [lift bind].
    apply (@compute_blocks_black _ _ 20 400 4 fresh [0; 10]).
    intros k [<-|[<-|[]]]; reflexivity.
Defined.

(** X21: the full compute, the last value given to [results] before the
    plot, does not go with [frame_timestamp[0::10]]: it holds a value
    for every frame, the strided timestamps one for every tenth, and
    with two frames or more the two lengths differ. *)
Theorem full_results_outnumber_strided_timestamps
        (moov : Type) (get_moov_atom : string -> result moov)
        (get_frame : string -> Z -> string -> moov -> result (ndarray Z))
        (graph : list task) (arr : dask_array) (d1 d2 : R) (n : nat)
        (g : globals) (frame_timestamp : list R) (results : list Z) :
  List.length frame_timestamp = List.length (chunks arr) ->
  2 <= List.length (chunks arr) ->
  floc_proxy_compute get_moov_atom get_frame graph arr d1 d2 n g
  = (Ok results, g) ->
  exists xs,
    getslice_step frame_timestamp 10 = Ok xs /\
    List.length results = List.length (chunks arr) /\
    List.length xs < List.length results.
Proof.
  intros Hlen HN Hrun. unfold floc_proxy_compute in Hrun.
  pose proof (@compute_blocks_inv moov get_moov_atom get_frame graph arr
                                  d1 d2 n g _ results Hrun) as Hall.
  destruct (@compute_blocks_ok moov get_moov_atom get_frame graph arr
                               d1 d2 n g _ Hall)
    as (vs' & Hvs' & Hvl & _).
  rewrite Hrun in Hvs'. injection Hvs' as <-. rewrite length_seq in Hvl.
  exists (stride_from 0 10 frame_timestamp).
  destruct (@getslice_step_spec R frame_timestamp _ 10 eq_refl) as (_ & Hxl & _).
  split; [reflexivity|]. split; [assumption|].
  rewrite Hxl, Hvl, Hlen.
  apply Nat.Div0.div_lt_upper_bound. lia.
Qed.

Lemma full_results_outnumber_strided_timestamps_witness :
  exists xs,
    getslice_step (repeat 0%R 12) 10 = Ok xs /\
    List.length (map (fun _ : nat => 0%Z) (seq 0 12))
    = List.length (chunks two_files_array) /\
    List.length xs < List.length (map (fun _ : nat => 0%Z) (seq 0 12)).
Proof.
  apply (@full_results_outnumber_strided_timestamps
           unit unit_moov_atom (black_get_frame [1080; 1920])
           (fst two_files_frames) two_files_array
           20 400 4 fresh (repeat 0%R 12)
           (map (fun _ : nat => 0%Z) (seq 0 12))).
  - reflexivity.
  - cbn. lia.
  - unfold floc_proxy_compute.
    apply (@compute_blocks_black (fst two_files_frames) two_files_array
                                 20 400 4 fresh (seq 0 12)).
    intros k Hk. apply in_seq in Hk.
    do 12 (destruct k as [|k]; [reflexivity|]). lia.
Defined.

(** ** The cells around the filter *)

Lemma cell_show_filter_run (g : globals) :
  exists bff,
    cell_show_filter g =
    (Ok tt,
     mk_globals (g_frame g) (Some 20%R) (Some 400%R) (Some 4) (Some bff)
                (g_I_filt g)) /\
    shape bff = [1024; 1024].
Proof.
  unfold cell_show_filter, bind, store, load. cbn [g_d1 g_d2 g_n].
  match goal with
  | |- context [butterworth ?a ?b ?c ?s] =>
      destruct (butterworth_run a b c s) as (bff & -> & Hs & _)
  end.
  exists bff. split; [reflexivity | assumption].
Qed.

(** X22: the cell that shows the filter and the cell that filters the
    example frame, run one after the other with a single-channel frame
    bound to [frame], bind [d1], [d2], [n] to 20, 400 and 4, [bff] to
    the 1024 by 1024 mask and [I_filt] to the frame filtered with these
    parameters, whatever the four names were bound to before; [frame]
    is left alone. *)
Theorem cells_filter_example_frame (g : globals) (frame : ndarray Z) (i j : nat) :
  g_frame g = Some frame -> gray_frame frame = true ->
  exists bff I_filt,
    bind cell_show_filter (fun _ => cell_example_frame) g =
    (Ok tt,
     mk_globals (Some frame) (Some 20%R) (Some 400%R) (Some 4) (Some bff)
                (Some I_filt)) /\
    shape bff = [1024; 1024] /\
    shape I_filt = [1024; 1024] /\
    item I_filt [i; j] = bandpass_filtered (pixel frame) 20 400 4 i j.
Proof.
  intros Hf Hgray.
  destruct (cell_show_filter_run g) as (bff & Hshow & Hbs).
  rewrite (bind_ok _ _ _ Hshow).
  match goal with
  | |- context [cell_example_frame ?s] =>
      destruct (frame_filter_gray frame 20 400 4 s Hgray)
        as (I & Hrun & HI & Hitem)
  end.
  exists bff, I. repeat split; trivial.
  unfold cell_example_frame, bind, load, store. cbn [g_frame g_d1 g_d2 g_n].
  rewrite Hf in Hrun |- *. cbn [g_frame g_d1 g_d2 g_n]. rewrite Hrun.
  reflexivity.
Qed.

Lemma cells_filter_example_frame_witness :
  exists bff I_filt,
    bind cell_show_filter (fun _ => cell_example_frame)
         (mk_globals (Some (black [1080; 1920])) (Some 1%R) None None None None)
    = (Ok tt,
       mk_globals (Some (black [1080; 1920])) (Some 20%R) (Some 400%R)
                  (Some 4) (Some bff) (Some I_filt)) /\
    shape bff = [1024; 1024] /\
    shape I_filt = [1024; 1024] /\
    item I_filt [0; 0] =
    bandpass_filtered (pixel (black [1080; 1920])) 20 400 4 0 0.
Proof.
  apply (@cells_filter_example_frame
           (mk_globals (Some (black [1080; 1920])) (Some 1%R) None None None None)
           (black [1080; 1920]) 0 0);
    reflexivity.
Defined.




(** ** From the table to a value of the proxy *)

(** X24: the values of [floc_proxy] follow the sorted URLs and, within
    a URL, the frame numbers: when the table is read, the moov atom of
    the [k]-th URL of [blob_urls] and its frame number [i] are fetched
    and the frame has shape (h, w) with both sides at least 1024, the
    notebook's value [k * |frame_numbers| + i] is the proxy of that
    frame. *)
Theorem notebook_floc_proxy_of_frame
        (moov : Type) (get_moov_atom : string -> result moov)
        (get_frame : string -> Z -> string -> moov -> result (ndarray Z))
        (read_json : string -> result dataframe)
        (pix_fmt : string) (frame_shape : list nat) (frame_dtype : dtype)
        (fns : list Z) (d1 d2 : R) (n : nat) (g : globals)
        (db : dataframe) (k i : nat) (url : string) (fn : Z) (m : moov)
        (frame : ndarray Z) (h w : nat) :
  read_json "dbcamhd.json"%string = Ok db ->
  nth_error (blob_urls db) k = Some url -> nth_error fns i = Some fn ->
  get_moov_atom url = Ok m -> get_frame url fn pix_fmt m = Ok frame ->
  shape frame = [h; w] -> 1024 <= h -> 1024 <= w ->
  exists r r',
    notebook_floc_proxy get_moov_atom get_frame read_json
                        pix_fmt frame_shape frame_dtype fns d1 d2 n
                        (k * List.length fns + i) g = (Ok r, g) /\
    calc_floc_proxy frame d1 d2 n g = (Ok r', g) /\
    item r [0] = item r' [0].
Proof.
  intros Hread Hk Hi Hm Hf Hs Hh Hw.
  destruct (gray_block_of frame Hs Hh Hw) as (G & Gb & E).
  destruct (@calc_floc_proxy_same_subimage (block_of frame) frame d1 d2 n g
                                           Gb G) as (r & r' & H1 & H2 & V).
  { intros a b _ _. apply E. }
  exists r, r'. repeat split; trivial.
  unfold notebook_floc_proxy. rewrite (bind_lift_ok _ _ Hread).
  assert (Hst : exists arr,
             stack (snd (delayed_frame_list pix_fmt frame_shape frame_dtype
                                            (blob_urls db) fns)) = Ok arr).
  { unfold delayed_frame_list. rewrite delayed_frame_loop_spec.
    cbn [fst snd app List.length]. eexists.
    apply (@stack_uniform frame_shape frame_dtype).
    - intros Ee.
      pose proof (length_frames_from frame_shape frame_dtype fns
                                     (blob_urls db) 0) as Hl.
      rewrite Ee in Hl. cbn [List.length] in Hl.
      assert (k < List.length (blob_urls db))
        by (apply nth_error_Some; congruence).
      assert (i < List.length fns) by (apply nth_error_Some; congruence).
      nia.
    - apply declared_shape_frames_from. }
  destruct Hst as (arr & Hst).
  pose proof (@compute_frame_element moov get_moov_atom get_frame pix_fmt
                frame_shape frame_dtype (blob_urls db) fns arr k i url fn
                Hk Hi Hst) as Hc.
  destruct (delayed_frame_list pix_fmt frame_shape frame_dtype
                               (blob_urls db) fns) as [graph lst].
  cbn [fst snd] in Hst, Hc. rewrite (bind_lift_ok _ _ Hst).
  unfold compute_floc_proxy. rewrite Hc, Hm. cbn [rbind]. rewrite Hf.
  cbn [lift bind]. assumption.
Qed.

Lemma notebook_floc_proxy_of_frame_witness :
  exists r r',
    notebook_floc_proxy unit_moov_atom (black_get_frame [1080; 1920])
                        (fun _ => Ok one_file_table)
                        "gray16le" [1080; 1920] uint16
                        frame_numbers_floc_analysis 20 400 4
                        (0 * List.length frame_numbers_floc_analysis + 3) fresh
    = (Ok r, fresh) /\
    calc_floc_proxy (black [1080; 1920]) 20 400 4 fresh = (Ok r', fresh) /\
    item r [0] = item r' [0].
Proof.
  apply (@notebook_floc_proxy_of_frame
           unit unit_moov_atom (black_get_frame [1080; 1920])
           (fun _ => Ok one_file_table)
           "gray16le" [1080; 1920] uint16 frame_numbers_floc_analysis
           20 400 4 fresh one_file_table 0 3 "a.mov" 4171%Z tt
           (black [1080; 1920]) 1080 1920);
    try reflexivity; lia.
Defined.
